(** * go-blar: metadata parser, registry, repository, hooks and routes

    A shallow embedding of [internal/meta/parse.go], [internal/meta/meta.go],
    [internal/repo/repository.go], [internal/hooks/hooks.go], the router
    and CRUD handlers of [internal/http], and the options, [New],
    [Register], [Start] and [Run] of package [goblar].

    Go strings are modelled as [string] (a sequence of bytes, each byte
    read as one rune): the model covers ASCII identifiers and tags. *)

From stdpp Require Import base gmap strings list.
From Stdlib Require Import Ascii String.

Open Scope string_scope.
Open Scope list_scope.

(* ------------------------------------------------------------------ *)
(** ** Helpers of the [strings] package *)

Module GoStrings.

Definition code (c : ascii) : nat := nat_of_ascii c.

Definition ascii_eqb (a b : ascii) : bool := Nat.eqb (code a) (code b).

Definition is_upper (c : ascii) : bool := Nat.leb 65 (code c) && Nat.leb (code c) 90.
Definition is_lower (c : ascii) : bool := Nat.leb 97 (code c) && Nat.leb (code c) 122.

(** [unicode.ToLower] restricted to ASCII. *)
Definition lower_rune (c : ascii) : ascii :=
  if is_upper c then ascii_of_nat (code c + 32) else c.

(** [strings.ToLower] on ASCII input.  Bytes are mapped one by one, which
    is what Go does on a string of ASCII bytes; Go also lowers non-ASCII
    runes (["É"] becomes ["é"]), which this model leaves unchanged, so the
    statements whose truth depends on it are restricted to [ascii_name]
    strings. *)
Definition ToLower (s : string) : string :=
  string_of_list_ascii (map lower_rune (list_ascii_of_string s)).

(** [strings.HasPrefix s p]. *)
Fixpoint HasPrefix (s p : string) : bool :=
  match p, s with
  | EmptyString, _ => true
  | String c p', String d s' => ascii_eqb c d && HasPrefix s' p'
  | String _ _, EmptyString => false
  end.

(** [strings.TrimPrefix s p]. *)
Definition TrimPrefix (s p : string) : string :=
  if HasPrefix s p then substring (String.length p) (String.length s - String.length p) s
  else s.

(** [strings.Contains s sub]. *)
Fixpoint Contains (s sub : string) : bool :=
  HasPrefix s sub ||
  match s with
  | EmptyString => false
  | String _ s' => Contains s' sub
  end.

(** ASCII white space as recognised by [unicode.IsSpace]. *)
Definition is_space (c : ascii) : bool :=
  let n := code c in Nat.eqb n 32 || (Nat.leb 9 n && Nat.leb n 13).

Fixpoint trim_left (l : list ascii) : list ascii :=
  match l with
  | c :: l' => if is_space c then trim_left l' else l
  | [] => []
  end.

(** [strings.TrimSpace] on ASCII input.  Go also trims the non-ASCII
    spaces of [unicode.IsSpace] (U+0085, U+00A0, ...), which this model
    keeps, so the statements whose truth depends on it are restricted to
    [ascii_name] strings. *)
Definition TrimSpace (s : string) : string :=
  string_of_list_ascii
    (rev (trim_left (rev (trim_left (list_ascii_of_string s))))).

(** [strings.Split s sep] for a one-byte separator: [cur] is the piece
    being read, pieces are returned in order; [Split "" sep = [""]]. *)
Fixpoint split_go (sep : ascii) (l : list ascii) (cur : list ascii) : list string :=
  match l with
  | [] => [string_of_list_ascii (rev cur)]
  | c :: l' =>
      if ascii_eqb c sep then string_of_list_ascii (rev cur) :: split_go sep l' []
      else split_go sep l' (c :: cur)
  end.

Definition Split (s : string) (sep : ascii) : list string :=
  split_go sep (list_ascii_of_string s) [].

End GoStrings.

Import GoStrings.

(* ------------------------------------------------------------------ *)
(** ** [toSnakeCase] ([internal/meta/parse.go]) *)

Module Snake.

(** The body of [for i, r := range runes]: [rest] is the suffix of
    [runes] starting at index [i]; [result] is the builder's content. *)
Fixpoint loop (runes : list ascii) (i : nat) (rest : list ascii)
    (result : list ascii) : list ascii :=
  match rest with
  | [] => result
  | r :: rest' =>
      if Nat.eqb i 0 then loop runes (S i) rest' (result ++ [r])
      else if ascii_eqb r "_" then loop runes (S i) rest' (result ++ [r])
      else
        let prev := nth (i - 1) runes " "%char in
        let result1 :=
          if is_upper r then
            if negb (ascii_eqb prev "_") && is_lower prev then result ++ ["_"%char]
            else if negb (ascii_eqb prev "_") && Nat.ltb (i + 1) (List.length runes)
                    && is_lower (nth (i + 1) runes " "%char)
            then result ++ ["_"%char]
            else result
          else result in
        loop runes (S i) rest' (result1 ++ [r])
  end.

Definition toSnakeCase (s : string) : string :=
  let runes := list_ascii_of_string s in
  ToLower (string_of_list_ascii (loop runes 0 runes [])).

End Snake.

Export Snake.


(** The insertion rules compared with [toSnakeCase]: a rule says, for
    an index [i] of [runes], whether an underscore goes before rune [i]. *)
Module SnakeRule.

Definition rune_at (runes : list ascii) (i : nat) : ascii := nth i runes " "%char.

(** The rule as the claim words it: (a) previous rune lowercase, or
    (b) previous rune uppercase and next rune lowercase; never at 0. *)
Definition rule_claim (runes : list ascii) (i : nat) : bool :=
  Nat.ltb 0 i && is_upper (rune_at runes i) &&
  (is_lower (rune_at runes (i - 1)) ||
   (is_upper (rune_at runes (i - 1)) && Nat.ltb (i + 1) (List.length runes)
    && is_lower (rune_at runes (i + 1)))).

(** The rule the code applies: (a) previous rune lowercase, or
    (b) previous rune is not an underscore and next rune lowercase. *)
Definition rule_code (runes : list ascii) (i : nat) : bool :=
  Nat.ltb 0 i && is_upper (rune_at runes i) &&
  negb (ascii_eqb (rune_at runes (i - 1)) "_") &&
  (is_lower (rune_at runes (i - 1)) ||
   (Nat.ltb (i + 1) (List.length runes) && is_lower (rune_at runes (i + 1)))).

Definition piece (rule : list ascii -> nat -> bool) (runes : list ascii) (i : nat)
    : list ascii :=
  (if rule runes i then ["_"%char] else []) ++ [rune_at runes i].

(** Lower-cased output of rewriting every rune by [piece]. *)
Definition snake_by (rule : list ascii -> nat -> bool) (s : string) : string :=
  let runes := list_ascii_of_string s in
  ToLower (string_of_list_ascii
             (flat_map (piece rule runes) (seq 0 (List.length runes)))).

End SnakeRule.

Import SnakeRule.

(* ------------------------------------------------------------------ *)
(** ** Runtime types as [reflect] exposes them *)

Module Reflect.

(** A struct tag, already split into its [key:"value"] pairs. *)
Definition StructTag := list (string * string).

(** [StructTag.Get]: the value of the first pair with that key, else "". *)
Fixpoint Get (tag : StructTag) (key : string) : string :=
  match tag with
  | [] => ""
  | (k, v) :: tag' => if String.eqb k key then v else Get tag' key
  end.

(** A [reflect.Type]: structs carry their declared name, their
    [String()] rendering and their direct fields; [RPtr] is [*elem];
    every other kind is [RBasic]. A field records whether it is
    embedded ([Anonymous]). *)
Inductive Type_ :=
| RStruct (name str : string) (fields : list StructField)
| RPtr (elem : Type_)
| RBasic (name str : string)
with StructField :=
| MkStructField (sf_Name sf_PkgPath : string) (sf_Tag : StructTag)
                (sf_Type : Type_) (sf_Index : list nat) (sf_Anonymous : bool).

(** A field that is not embedded. *)
Definition Field (n p : string) (g : StructTag) (t : Type_) (i : list nat) : StructField :=
  MkStructField n p g t i false.

Definition Name (t : Type_) : string :=
  match t with RStruct n _ _ => n | RPtr _ => "" | RBasic n _ => n end.

Fixpoint String_ (t : Type_) : string :=
  match t with
  | RStruct _ s _ => s
  | RPtr e => String.append "*" (String_ e)
  | RBasic _ s => s
  end.

Definition sfName (sf : StructField) : string :=
  let '(MkStructField n _ _ _ _ _) := sf in n.
Definition sfPkgPath (sf : StructField) : string :=
  let '(MkStructField _ p _ _ _ _) := sf in p.
Definition sfTag (sf : StructField) : StructTag :=
  let '(MkStructField _ _ g _ _ _) := sf in g.
Definition sfType (sf : StructField) : Type_ :=
  let '(MkStructField _ _ _ t _ _) := sf in t.
Definition sfIndex (sf : StructField) : list nat :=
  let '(MkStructField _ _ _ _ i _) := sf in i.
Definition sfAnonymous (sf : StructField) : bool :=
  let '(MkStructField _ _ _ _ _ a) := sf in a.

(** Type identity, structurally. *)
Fixpoint tag_eqb (g g' : StructTag) : bool :=
  match g, g' with
  | [], [] => true
  | (k, v) :: g1, (k', v') :: g1' => String.eqb k k' && String.eqb v v' && tag_eqb g1 g1'
  | _, _ => false
  end.

Fixpoint index_eqb (i i' : list nat) : bool :=
  match i, i' with
  | [], [] => true
  | x :: i1, x' :: i1' => Nat.eqb x x' && index_eqb i1 i1'
  | _, _ => false
  end.

Fixpoint type_eqb (a b : Type_) {struct a} : bool :=
  match a, b with
  | RStruct n s fs, RStruct n' s' fs' =>
      String.eqb n n' && String.eqb s s' &&
      (fix go (l l' : list StructField) {struct l} : bool :=
         match l, l' with
         | [], [] => true
         | f :: l1, f' :: l1' => field_eqb f f' && go l1 l1'
         | _, _ => false
         end) fs fs'
  | RPtr e, RPtr e' => type_eqb e e'
  | RBasic n s, RBasic n' s' => String.eqb n n' && String.eqb s s'
  | _, _ => false
  end
with field_eqb (f f' : StructField) {struct f} : bool :=
  match f, f' with
  | MkStructField n p g t i a, MkStructField n' p' g' t' i' a' =>
      String.eqb n n' && String.eqb p p' && tag_eqb g g' && type_eqb t t' &&
      index_eqb i i' && Bool.eqb a a'
  end.

Fixpoint type_size (t : Type_) : nat :=
  match t with
  | RStruct _ _ fs =>
      S ((fix go (l : list StructField) : nat :=
            match l with [] => 0 | f :: l1 => field_size f + go l1 end) fs)
  | RPtr e => S (type_size e)
  | RBasic _ _ => 1
  end
with field_size (f : StructField) : nat :=
  let '(MkStructField _ _ _ t _ _) := f in S (type_size t).

Definition struct_fields (t : Type_) : list StructField :=
  match t with RStruct _ _ fs => fs | _ => [] end.

(** [t.Field(i)] with [Index] set to the path of a promoted field. *)
Definition with_index (sf : StructField) (idx : list nat) : StructField :=
  let '(MkStructField n p g t _ a) := sf in MkStructField n p g t idx a.

(** The struct [T] of an embedded field of type [T] or [*T]. *)
Definition embedded_struct (sf : StructField) : option Type_ :=
  if sfAnonymous sf then
    match sfType sf with
    | RStruct a b c => Some (RStruct a b c)
    | RPtr (RStruct a b c) => Some (RStruct a b c)
    | _ => None
    end
  else None.

(** The [count]/[nextCount] maps of [FieldByNameFunc]. *)
Fixpoint count_of (c : list (Type_ * nat)) (t : Type_) : nat :=
  match c with
  | [] => 0
  | (u, n) :: c' => if type_eqb u t then n else count_of c' t
  end.

(** The search state within one depth: [visited], [result] ([ok] is
    [result <> None]), and the [next] queue with its [nextCount]. *)
Record Level := {
  lv_visited : list Type_;
  lv_result : option StructField;
  lv_next : list (Type_ * list nat);
  lv_nextCount : list (Type_ * nat)
}.

Definition is_found (r : option StructField) : bool :=
  match r with Some _ => true | None => false end.

(** The field loop of one scanned struct; [cnt] is [count[t]], [idx] the
    scan's index path; [None] is the annihilating [return StructField{}, false]. *)
Fixpoint scan_fields (name : string) (cnt : nat) (idx : list nat) (fs : list StructField)
    (i : nat) (lv : Level) : option Level :=
  match fs with
  | [] => Some lv
  | f :: fs' =>
      if String.eqb (sfName f) name then
        if Nat.ltb 1 cnt || is_found (lv_result lv) then None
        else scan_fields name cnt idx fs' (S i)
               {| lv_visited := lv_visited lv;
                  lv_result := Some (with_index f (idx ++ [i]));
                  lv_next := lv_next lv; lv_nextCount := lv_nextCount lv |}
      else if is_found (lv_result lv) then scan_fields name cnt idx fs' (S i) lv
      else
        match embedded_struct f with
        | None => scan_fields name cnt idx fs' (S i) lv
        | Some styp =>
            if Nat.ltb 0 (count_of (lv_nextCount lv) styp) then
              scan_fields name cnt idx fs' (S i)
                {| lv_visited := lv_visited lv; lv_result := lv_result lv;
                   lv_next := lv_next lv; lv_nextCount := (styp, 2) :: lv_nextCount lv |}
            else
              scan_fields name cnt idx fs' (S i)
                {| lv_visited := lv_visited lv; lv_result := lv_result lv;
                   lv_next := lv_next lv ++ [(styp, idx ++ [i])];
                   lv_nextCount := (styp, if Nat.ltb 1 cnt then 2 else 1) :: lv_nextCount lv |}
        end
  end.

(** [for _, scan := range current]: skip visited types, mark, scan. *)
Fixpoint scan_level (name : string) (count : list (Type_ * nat))
    (current : list (Type_ * list nat)) (lv : Level) : option Level :=
  match current with
  | [] => Some lv
  | (t, idx) :: current' =>
      if existsb (type_eqb t) (lv_visited lv) then scan_level name count current' lv
      else
        match scan_fields name (count_of count t) idx (struct_fields t) 0
                {| lv_visited := t :: lv_visited lv; lv_result := lv_result lv;
                   lv_next := lv_next lv; lv_nextCount := lv_nextCount lv |} with
        | None => None
        | Some lv' => scan_level name count current' lv'
        end
  end.

(** [for len(next) > 0 { ... if ok { break } }]; every level goes one
    embedding deeper, so [fuel] at the size of the type is never exhausted. *)
Fixpoint bfs (fuel : nat) (name : string) (next : list (Type_ * list nat))
    (nextCount : list (Type_ * nat)) (visited : list Type_) : option StructField :=
  match fuel with
  | 0 => None
  | S fuel' =>
      match next with
      | [] => None
      | _ :: _ =>
          match scan_level name nextCount next
                  {| lv_visited := visited; lv_result := None; lv_next := [];
                     lv_nextCount := [] |} with
          | None => None
          | Some lv =>
              match lv_result lv with
              | Some f => Some f
              | None => bfs fuel' name (lv_next lv) (lv_nextCount lv) (lv_visited lv)
              end
          end
      end
  end.

Fixpoint find_direct (fields : list StructField) (n : string) : option StructField :=
  match fields with
  | [] => None
  | sf :: fs => if String.eqb (sfName sf) n then Some sf else find_direct fs n
  end.

Definition fields_size (fields : list StructField) : nat :=
  fold_right (fun f k => field_size f + k) 0 fields.

(** [Type.FieldByName] on a struct with these [fields]: the quick check
    of the direct fields (an empty name is never found), then, if some
    field is embedded, the
    breadth-first search of [FieldByNameFunc], starting with the struct
    itself at depth 0. *)
Definition field_by_name (fields : list StructField) (n : string) : option StructField :=
  if String.eqb n "" then None else
  match find_direct fields n with
  | Some sf => Some sf
  | None =>
      if existsb sfAnonymous fields then
        match scan_fields n 0 [] fields 0
                {| lv_visited := []; lv_result := None; lv_next := []; lv_nextCount := [] |} with
        | None => None
        | Some lv =>
            match lv_result lv with
            | Some f => Some f
            | None => bfs (S (fields_size fields)) n (lv_next lv) (lv_nextCount lv) (lv_visited lv)
            end
        end
      else None
  end.

End Reflect.

Import Reflect.

(* ------------------------------------------------------------------ *)
(** ** The metadata model ([internal/meta/meta.go]) *)

Module Meta.

Record ForeignKey := { fk_TableName : string; fk_FieldName : string }.
Record ManyToMany := { m2m_TableName : string; m2m_FieldName : string }.

Record FieldMeta := {
  fm_Name : string;
  fm_Type : Type_;
  fm_Index : list nat;
  IsPK : bool;
  FK : option ForeignKey;
  Nested : bool;
  M2M : option ManyToMany;
  List_ : bool;
  Hidden : bool;
  ReadOnly : bool
}.

Record NestedMeta := { nm_Name : string; nm_Type : Type_; nm_Index : list nat }.

Record AggregateMeta := { ag_Name : string; ag_Type : string; ag_Field : string }.

Record EntityMeta := {
  em_Type : Type_;
  em_Name : string;
  TableName : string;
  PKField : option FieldMeta;
  Fields : list FieldMeta;
  em_Nested : list NestedMeta;
  Aggregates : list AggregateMeta
}.

Fixpoint find_field (fs : list FieldMeta) (name : string) : option FieldMeta :=
  match fs with
  | [] => None
  | f :: fs' => if String.eqb (fm_Name f) name then Some f else find_field fs' name
  end.

Fixpoint find_aggregate (ags : list AggregateMeta) (name : string)
    : option AggregateMeta :=
  match ags with
  | [] => None
  | a :: ags' => if String.eqb (ag_Name a) name then Some a else find_aggregate ags' name
  end.

(** [GetFieldByName] (method of EntityMeta). *)
Definition GetFieldByName (em : EntityMeta) (name : string) : option FieldMeta :=
  find_field (Fields em) name.

(** [GetAggregateByName] (method of EntityMeta). *)
Definition GetAggregateByName (em : EntityMeta) (name : string) : option AggregateMeta :=
  find_aggregate (Aggregates em) name.

End Meta.

Import Meta.

(* ------------------------------------------------------------------ *)
(** ** The parser and the registry ([internal/meta/parse.go]) *)

Module Parser.

(** Assignments to one field of a [FieldMeta] or an [EntityMeta]. *)
Definition with_flags (fm : FieldMeta) (pk nested list hidden ro : bool) : FieldMeta :=
  {| fm_Name := fm_Name fm; fm_Type := fm_Type fm; fm_Index := fm_Index fm;
     IsPK := pk; FK := FK fm; Nested := nested; M2M := M2M fm;
     List_ := list; Hidden := hidden; ReadOnly := ro |}.

Definition set_IsPK (fm : FieldMeta) : FieldMeta :=
  with_flags fm true (Nested fm) (List_ fm) (Hidden fm) (ReadOnly fm).
Definition set_Nested (fm : FieldMeta) : FieldMeta :=
  with_flags fm (IsPK fm) true (List_ fm) (Hidden fm) (ReadOnly fm).
Definition set_List (fm : FieldMeta) : FieldMeta :=
  with_flags fm (IsPK fm) (Nested fm) true (Hidden fm) (ReadOnly fm).
Definition set_Hidden (fm : FieldMeta) : FieldMeta :=
  with_flags fm (IsPK fm) (Nested fm) (List_ fm) true (ReadOnly fm).
Definition set_ReadOnly (fm : FieldMeta) : FieldMeta :=
  with_flags fm (IsPK fm) (Nested fm) (List_ fm) (Hidden fm) true.

Definition set_FK (fm : FieldMeta) (fk : option ForeignKey) : FieldMeta :=
  {| fm_Name := fm_Name fm; fm_Type := fm_Type fm; fm_Index := fm_Index fm;
     IsPK := IsPK fm; FK := fk; Nested := Nested fm; M2M := M2M fm;
     List_ := List_ fm; Hidden := Hidden fm; ReadOnly := ReadOnly fm |}.
Definition set_M2M (fm : FieldMeta) (m : option ManyToMany) : FieldMeta :=
  {| fm_Name := fm_Name fm; fm_Type := fm_Type fm; fm_Index := fm_Index fm;
     IsPK := IsPK fm; FK := FK fm; Nested := Nested fm; M2M := m;
     List_ := List_ fm; Hidden := Hidden fm; ReadOnly := ReadOnly fm |}.

Definition set_TableName (m : EntityMeta) (tn : string) : EntityMeta :=
  {| em_Type := em_Type m; em_Name := em_Name m; TableName := tn;
     PKField := PKField m; Fields := Fields m; em_Nested := em_Nested m;
     Aggregates := Aggregates m |}.

(** [meta.Fields = append(meta.Fields, fm)] and [meta.PKField = pk]. *)
Definition set_fields (m : EntityMeta) (fs : list FieldMeta) (pk : option FieldMeta)
    : EntityMeta :=
  {| em_Type := em_Type m; em_Name := em_Name m; TableName := TableName m;
     PKField := pk; Fields := fs; em_Nested := em_Nested m;
     Aggregates := Aggregates m |}.

(** One case of the [switch] over a trimmed [go-blar] fragment. *)
Definition parse_part (fm : FieldMeta) (part : string) : FieldMeta :=
  if String.eqb part "pk" then set_IsPK fm
  else if String.eqb part "nested" then set_Nested fm
  else if String.eqb part "list" then set_List fm
  else if String.eqb part "hidden" then set_Hidden fm
  else if String.eqb part "readonly" then set_ReadOnly fm
  else if HasPrefix part "fk:" then
    set_FK fm (Some {| fk_TableName := TrimPrefix part "fk:"; fk_FieldName := "" |})
  else if HasPrefix part "m2m:" then
    set_M2M fm (Some {| m2m_TableName := TrimPrefix part "m2m:"; m2m_FieldName := "" |})
  else if HasPrefix part "count:" then
    let meta := {| ag_Name := fm_Name fm; ag_Type := "count";
                   ag_Field := TrimPrefix part "count:" |} in
    (* _ = meta *)
    let _ := meta in fm
  else if HasPrefix part "sum:" then
    let meta := {| ag_Name := fm_Name fm; ag_Type := "sum";
                   ag_Field := TrimPrefix part "sum:" |} in
    (* _ = meta *)
    let _ := meta in fm
  else fm.

(** [parseField]; it never returns nil. *)
Definition parseField (sf : StructField) : FieldMeta :=
  let blarTag := Get (sfTag sf) "go-blar" in
  let gormTag := Get (sfTag sf) "gorm" in
  let fm := {| fm_Name := sfName sf; fm_Type := sfType sf; fm_Index := sfIndex sf;
               IsPK := false; FK := None; Nested := false; M2M := None;
               List_ := false; Hidden := false; ReadOnly := false |} in
  let fm := if negb (String.eqb blarTag "")
            then fold_left (fun fm part => parse_part fm (TrimSpace part))
                           (Split blarTag ";") fm
            else fm in
  if Contains gormTag "primaryKey" then set_IsPK fm else fm.

Fixpoint table_of_parts (parts : list string) : string :=
  match parts with
  | [] => ""
  | part :: parts' =>
      let part := TrimSpace part in
      if HasPrefix part "table:" then TrimPrefix part "table:" else table_of_parts parts'
  end.

(** [parseGormTag]. *)
Definition parseGormTag (tag : string) : string :=
  if String.eqb tag "" then "" else table_of_parts (Split tag ";").

(** One iteration of the field loop of [Parse]. *)
Definition parse_step (meta : EntityMeta) (sf : StructField) : EntityMeta :=
  if negb (String.eqb (sfPkgPath sf) "") then meta
  else
    let fm := parseField sf in
    set_fields meta (Fields meta ++ [fm]) (if IsPK fm then Some fm else PKField meta).

(** Addresses of heap-allocated [EntityMeta] values. *)
Definition ptr := positive.

(** The package state: the [registry] map and the heap cells it points to. *)
Record State := {
  registry : gmap string ptr;
  heap : gmap ptr EntityMeta;
  next_ptr : ptr
}.

Definition init_state : State := {| registry := ∅; heap := ∅; next_ptr := 1%positive |}.

(** How a Go call ends: a result pair of an EntityMeta pointer and an error, or a panic. *)
Inductive Outcome :=
| Returned (meta : option ptr) (err : option string)
| Panicked (msg : string).

(** [if t.Kind() == reflect.Ptr { t = t.Elem() }]. *)
Definition deref (t : Type_) : Type_ := match t with RPtr e => e | _ => t end.

(** [Parse]; [entity] is the dynamic type of the [any] argument, [None]
    for a nil interface (whose [reflect.TypeOf] is nil). *)
Definition Parse (st : State) (entity : option Type_) : State * Outcome :=
  match entity with
  | None => (st, Panicked "invalid memory address or nil pointer dereference")
  | Some t0 =>
      let t := deref t0 in
      let key := String_ t in
      match registry st !! key with
      | Some meta => (st, Returned (Some meta) None)
      | None =>
          let meta := {| em_Type := t; em_Name := Name t;
                         TableName := String.append (toSnakeCase (Name t)) "s";
                         PKField := None; Fields := []; em_Nested := [];
                         Aggregates := [] |} in
          match t with
          | RStruct _ _ fields =>
              let meta :=
                match field_by_name fields "gorm" with
                | Some gormTag =>
                    let tableName := parseGormTag (Get (sfTag gormTag) "gorm") in
                    if negb (String.eqb tableName "") then set_TableName meta tableName
                    else meta
                | None => meta
                end in
              let meta := fold_left parse_step fields meta in
              let p := next_ptr st in
              ({| registry := <[key := p]> (registry st);
                  heap := <[p := meta]> (heap st);
                  next_ptr := Pos.succ p |},
               Returned (Some p) None)
          | _ => (st, Panicked "reflect: FieldByName of non-struct type")
          end
      end
  end.

(** The descriptor a successful [Parse] call returns, read from the heap. *)
Definition parsed_meta (st : State) (entity : option Type_) : option EntityMeta :=
  match Parse st entity with
  | (st', Returned (Some p) _) => heap st' !! p
  | _ => None
  end.

(** The registry key [Parse] uses for an argument of type [t0]. *)
Definition key_of (t0 : Type_) : string := String_ (deref t0).

(** Fields [Parse] records: the exported ones ([PkgPath == ""]). *)
Definition exported (sf : StructField) : bool := String.eqb (sfPkgPath sf) "".

(** The table-name override [Parse] honours: the first [table:] fragment
    of the [gorm] tag of a field named [gorm], when non-empty. *)
Definition table_override (fields : list StructField) : option string :=
  match field_by_name fields "gorm" with
  | Some g =>
      let tn := parseGormTag (Get (sfTag g) "gorm") in
      if String.eqb tn "" then None else Some tn
  | None => None
  end.

(** [ClearRegistry]. *)
Definition ClearRegistry (st : State) : State :=
  {| registry := ∅; heap := heap st; next_ptr := next_ptr st |}.

(** A sequence of calls into the package. *)
Inductive Call := CParse (entity : option Type_) | CClear.

Definition step (st : State) (c : Call) : State :=
  match c with
  | CParse e => fst (Parse st e)
  | CClear => ClearRegistry st
  end.

Definition run (st : State) (cs : list Call) : State := fold_left step cs st.

Definition no_clear (cs : list Call) : bool :=
  forallb (fun c => match c with CClear => false | _ => true end) cs.

End Parser.

Import Parser.

(* ------------------------------------------------------------------ *)
(** ** Route registration ([internal/http], [RegisterEntityRoutes]) *)

Module Routes.

Inductive Method := GET | POST | PUT | DELETE.

(** The handler constructors of [*Handlers], applied to an entity. *)
Inductive HandlerFunc :=
| CreateHandler (meta : EntityMeta)
| ListHandler (meta : EntityMeta)
| GetHandler (meta : EntityMeta)
| UpdateHandler (meta : EntityMeta)
| DeleteHandler (meta : EntityMeta).

Record Route := { rt_method : Method; rt_pattern : string; rt_handler : HandlerFunc }.

(** A chi router, as the list of routes registered on it, in order. *)
Definition Router := list Route.

Definition handle (r : Router) (m : Method) (pattern : string) (h : HandlerFunc) : Router :=
  r ++ [{| rt_method := m; rt_pattern := pattern; rt_handler := h |}].

(** The loop of [toURLPath]: [i] is the index of rune [r]; each rune
    becomes [byte(r+'a'-'A'+1)]. *)
Fixpoint url_loop (i : nat) (s : list ascii) : list ascii :=
  match s with
  | [] => []
  | r :: s' =>
      (if Nat.ltb 0 i && is_upper r then ["-"%char] else []) ++
      [ascii_of_nat ((code r + code "a" - code "A" + 1) mod 256)] ++
      url_loop (S i) s'
  end.

(** [toURLPath]. *)
Definition toURLPath (s : string) : string :=
  string_of_list_ascii (url_loop 0 (list_ascii_of_string s)).

(** [RegisterEntityRoutes]. *)
Definition RegisterEntityRoutes (router : Router) (meta : EntityMeta) : Router :=
  let resourceName := toURLPath (em_Name meta) in
  let router := handle router POST (String.append "/" resourceName) (CreateHandler meta) in
  let router := handle router GET (String.append "/" resourceName) (ListHandler meta) in
  let router := handle router GET (String.append "/" (String.append resourceName "/{id}"))
                       (GetHandler meta) in
  let router := handle router PUT (String.append "/" (String.append resourceName "/{id}"))
                       (UpdateHandler meta) in
  handle router DELETE (String.append "/" (String.append resourceName "/{id}"))
         (DeleteHandler meta).

(** The five routes the claim describes on a resource segment. *)
Definition five_routes (res : string) (meta : EntityMeta) : list Route :=
  [{| rt_method := POST; rt_pattern := String.append "/" res; rt_handler := CreateHandler meta |};
   {| rt_method := GET; rt_pattern := String.append "/" res; rt_handler := ListHandler meta |};
   {| rt_method := GET; rt_pattern := String.append "/" (String.append res "/{id}");
      rt_handler := GetHandler meta |};
   {| rt_method := PUT; rt_pattern := String.append "/" (String.append res "/{id}");
      rt_handler := UpdateHandler meta |};
   {| rt_method := DELETE; rt_pattern := String.append "/" (String.append res "/{id}");
      rt_handler := DeleteHandler meta |}].

End Routes.

(* ------------------------------------------------------------------ *)
(** ** The generic repository ([internal/repo/repository.go]) *)

Module Repo.

(** Errors the repository can return: [gorm.ErrInvalidDB] is the
    no-storage-configured error, the others come from the driver. *)
Inductive DBError := ErrInvalidDB | ErrRecordNotFound | DriverError (msg : string).

(** The driver calls a repository operation issues. *)
Inductive DBCall := DCreate | DFirst | DFind | DSave | DDelete | DCount.

Section Repository.

Context {T ID Ctx : Type}.

(** A [*gorm.DB] handle, through the operations the repository uses;
    each is already bound to the context by [WithContext]. *)
Record DB := {
  db_Create : Ctx -> T -> T * option DBError;
  db_First : Ctx -> ID -> T * option DBError;
  db_Find : Ctx -> list T * option DBError;
  db_Save : Ctx -> T -> T * option DBError;
  db_Delete : Ctx -> ID -> option DBError;
  db_Count : Ctx -> Z * option DBError
}.

(** [Repository[T]]; [db] is [None] for a nil handle. *)
Record Repository := { db : option DB; meta : ptr }.

Definition New (d : option DB) (m : ptr) : Repository := {| db := d; meta := m |}.

(** Every operation returns its Go results and the driver calls made. *)
Definition Create (r : Repository) (ctx : Ctx) (entity : T)
    : (T * option DBError) * list DBCall :=
  match db r with
  | None => ((entity, Some ErrInvalidDB), [])
  | Some d => (db_Create d ctx entity, [DCreate])
  end.

Definition GetByID (r : Repository) (ctx : Ctx) (id : ID)
    : (option T * option DBError) * list DBCall :=
  match db r with
  | None => ((None, Some ErrInvalidDB), [])
  | Some d =>
      let '(entity, err) := db_First d ctx id in
      match err with
      | Some e => ((None, Some e), [DFirst])
      | None => ((Some entity, None), [DFirst])
      end
  end.

Definition GetAll (r : Repository) (ctx : Ctx)
    : (option (list T) * option DBError) * list DBCall :=
  match db r with
  | None => ((None, Some ErrInvalidDB), [])
  | Some d =>
      let '(entities, err) := db_Find d ctx in
      match err with
      | Some e => ((None, Some e), [DFind])
      | None => ((Some entities, None), [DFind])
      end
  end.

Definition Update (r : Repository) (ctx : Ctx) (entity : T)
    : (T * option DBError) * list DBCall :=
  match db r with
  | None => ((entity, Some ErrInvalidDB), [])
  | Some d => (db_Save d ctx entity, [DSave])
  end.

Definition Delete (r : Repository) (ctx : Ctx) (id : ID)
    : option DBError * list DBCall :=
  match db r with
  | None => (Some ErrInvalidDB, [])
  | Some d => (db_Delete d ctx id, [DDelete])
  end.

Definition Count (r : Repository) (ctx : Ctx) : (Z * option DBError) * list DBCall :=
  match db r with
  | None => ((0%Z, Some ErrInvalidDB), [])
  | Some d => (db_Count d ctx, [DCount])
  end.

End Repository.

Arguments DB : clear implicits.
Arguments Repository : clear implicits.

End Repo.

(* ------------------------------------------------------------------ *)
(** ** Hook dispatch ([internal/hooks/hooks.go], [goblar/hooks.go]) *)

Module Hooks.

(** The six single-method interfaces of [goblar/hooks.go]. *)
Inductive Hook := BeforeCreate | AfterCreate | BeforeUpdate | AfterUpdate
                | BeforeDelete | AfterDelete.

Section Dispatch.

Context {S Ctx Tx Err : Type}.

(** A hook method with the receiver's state made explicit:
    [(ctx, tx) -> error], which may update the receiver. *)
Definition HookMethod := Ctx -> Tx -> S -> S * option Err.

(** The dynamic value behind [entity any]: the method set of its type
    (which hook interfaces it satisfies) and the receiver's state. *)
Record Entity := {
  methods : Hook -> option HookMethod;
  state : S
}.

Definition with_state (e : Entity) (s : S) : Entity :=
  {| methods := methods e; state := s |}.

(** [if h, ok := entity.(I); ok { return h.M(ctx, tx) }; return nil];
    the last component lists the hook methods invoked. *)
Definition call_if (k : Hook) (ctx : Ctx) (entity : Entity) (tx : Tx)
    : Entity * option Err * list Hook :=
  match methods entity k with
  | Some h => let '(s', err) := h ctx tx (state entity) in (with_state entity s', err, [k])
  | None => (entity, None, [])
  end.

Definition CallBeforeCreate (ctx : Ctx) (entity : Entity) (tx : Tx) :=
  call_if BeforeCreate ctx entity tx.
Definition CallAfterCreate (ctx : Ctx) (entity : Entity) (tx : Tx) :=
  call_if AfterCreate ctx entity tx.
Definition CallBeforeUpdate (ctx : Ctx) (entity : Entity) (tx : Tx) :=
  call_if BeforeUpdate ctx entity tx.
Definition CallAfterUpdate (ctx : Ctx) (entity : Entity) (tx : Tx) :=
  call_if AfterUpdate ctx entity tx.
Definition CallBeforeDelete (ctx : Ctx) (entity : Entity) (tx : Tx) :=
  call_if BeforeDelete ctx entity tx.
Definition CallAfterDelete (ctx : Ctx) (entity : Entity) (tx : Tx) :=
  call_if AfterDelete ctx entity tx.

(** The dispatch function of each lifecycle point. *)
Definition dispatch (k : Hook) : Ctx -> Entity -> Tx -> Entity * option Err * list Hook :=
  match k with
  | BeforeCreate => CallBeforeCreate
  | AfterCreate => CallAfterCreate
  | BeforeUpdate => CallBeforeUpdate
  | AfterUpdate => CallAfterUpdate
  | BeforeDelete => CallBeforeDelete
  | AfterDelete => CallAfterDelete
  end.

End Dispatch.

Arguments Entity : clear implicits.

(** [MockEntityWithHooks] of the hook tests. *)
Record MockState := {
  BeforeCreateCalled : bool; AfterCreateCalled : bool;
  BeforeUpdateCalled : bool; AfterUpdateCalled : bool;
  BeforeDeleteCalled : bool; AfterDeleteCalled : bool;
  ShouldFail : bool
}.

Definition mark (k : Hook) (m : MockState) : MockState :=
  {| BeforeCreateCalled := match k with BeforeCreate => true | _ => BeforeCreateCalled m end;
     AfterCreateCalled := match k with AfterCreate => true | _ => AfterCreateCalled m end;
     BeforeUpdateCalled := match k with BeforeUpdate => true | _ => BeforeUpdateCalled m end;
     AfterUpdateCalled := match k with AfterUpdate => true | _ => AfterUpdateCalled m end;
     BeforeDeleteCalled := match k with BeforeDelete => true | _ => BeforeDeleteCalled m end;
     AfterDeleteCalled := match k with AfterDelete => true | _ => AfterDeleteCalled m end;
     ShouldFail := ShouldFail m |}.

Definition mock_message (k : Hook) : string :=
  match k with
  | BeforeCreate => "before create failed" | AfterCreate => "after create failed"
  | BeforeUpdate => "before update failed" | AfterUpdate => "after update failed"
  | BeforeDelete => "before delete failed" | AfterDelete => "after delete failed"
  end.

Definition mock_method (k : Hook) : @HookMethod MockState unit unit string :=
  fun _ _ m => let m := mark k m in (m, if ShouldFail m then Some (mock_message k) else None).

Definition MockEntityWithHooks (m : MockState) : Entity MockState unit unit string :=
  {| methods := fun k => Some (mock_method k); state := m |}.

Definition mock0 : MockState :=
  {| BeforeCreateCalled := false; AfterCreateCalled := false;
     BeforeUpdateCalled := false; AfterUpdateCalled := false;
     BeforeDeleteCalled := false; AfterDeleteCalled := false; ShouldFail := false |}.

End Hooks.

(* ------------------------------------------------------------------ *)
(** ** Vocabulary for the parser's properties *)

Module ParserVocab.

(** The five flag fragments of the [go-blar] tag and the flag each sets. *)
Inductive Flag := FPk | FNested | FList | FHidden | FReadOnly.

Definition flag_name (f : Flag) : string :=
  match f with
  | FPk => "pk" | FNested => "nested" | FList => "list"
  | FHidden => "hidden" | FReadOnly => "readonly"
  end.

Definition flag_get (f : Flag) (fm : FieldMeta) : bool :=
  match f with
  | FPk => IsPK fm | FNested => Nested fm | FList => List_ fm
  | FHidden => Hidden fm | FReadOnly => ReadOnly fm
  end.

Definition flag_eqb (f g : Flag) : bool :=
  match f, g with
  | FPk, FPk | FNested, FNested | FList, FList
  | FHidden, FHidden | FReadOnly, FReadOnly => true
  | _, _ => false
  end.

(** The trimmed fragments [parseField] switches on. *)
Definition fragments (blarTag : string) : list string := map TrimSpace (Split blarTag ";").

(** The [FieldMeta] [parseField] starts from: name, type and index of the
    field, every flag off, no relation. *)
Definition bare_field (sf : StructField) : FieldMeta :=
  {| fm_Name := sfName sf; fm_Type := sfType sf; fm_Index := sfIndex sf;
     IsPK := false; FK := None; Nested := false; M2M := None;
     List_ := false; Hidden := false; ReadOnly := false |}.

(** A table name usable after [fk:] or [m2m:]: no white space, no [;]. *)
Definition plain_name (s : string) : bool :=
  forallb (fun c => negb (is_space c) && negb (ascii_eqb c ";")) (list_ascii_of_string s).

(** A string of ASCII bytes only: on such strings Go's rune-wise
    [[]rune], [unicode] and [strings] functions act byte by byte, as
    modelled here. *)
Definition ascii_name (s : string) : bool :=
  forallb (fun c => Nat.ltb (code c) 128) (list_ascii_of_string s).

(** Well-formed package state: every registered and every allocated
    address lies below the allocation counter. *)
Definition wf_state (st : State) : Prop :=
  (forall k p, registry st !! k = Some p -> (p < next_ptr st)%positive) /\
  (forall q m, heap st !! q = Some m -> (q < next_ptr st)%positive).

End ParserVocab.

Import ParserVocab.

(* ------------------------------------------------------------------ *)
(** ** The [goblar] package: options, [New], [Register], [Start], [Run] *)

Module Goblar.

Section App.

(** [DBH]: a non-nil [*gorm.DB]; [W]: the database it is connected to;
    [Handler]: [http.Handler]. *)
Context {DBH W Handler : Type}.

(** [db.AutoMigrate(model)]: it may change the database and fail. *)
Context (AutoMigrate : DBH -> W -> option Type_ -> W * option string).

(** [config]. *)
Record config := {
  cfg_db : option DBH;
  cfg_addr : string;
  cfg_middleware : list (Handler -> Handler)
}.

(** [Option func( *config)]. *)
Definition Option := config -> config.

Definition WithDB (d : option DBH) : Option :=
  fun c => {| cfg_db := d; cfg_addr := cfg_addr c; cfg_middleware := cfg_middleware c |}.

Definition WithAddress (addr : string) : Option :=
  fun c => {| cfg_db := cfg_db c; cfg_addr := addr; cfg_middleware := cfg_middleware c |}.

Definition WithMiddleware (m : Handler -> Handler) : Option :=
  fun c => {| cfg_db := cfg_db c; cfg_addr := cfg_addr c;
              cfg_middleware := cfg_middleware c ++ [m] |}.

Definition newConfig : config :=
  {| cfg_db := None; cfg_addr := ":8080"; cfg_middleware := [] |}.

(** [c.apply(opts...)]. *)
Definition apply (c : config) (opts : list Option) : config :=
  fold_left (fun c opt => opt c) opts c.

(** [App]; [app_router] is never assigned, so it stays nil. *)
Record App := {
  app_db : option DBH;
  app_router : option Handler;
  app_cfg : config;
  app_registry : gmap string ptr
}.

Definition New (opts : list Option) : App :=
  let cfg := apply newConfig opts in
  {| app_db := cfg_db cfg; app_router := None; app_cfg := cfg; app_registry := ∅ |}.

Definition set_registry (a : App) (r : gmap string ptr) : App :=
  {| app_db := app_db a; app_router := app_router a; app_cfg := app_cfg a;
     app_registry := r |}.

Definition set_cfg (a : App) (c : config) : App :=
  {| app_db := app_db a; app_router := app_router a; app_cfg := c;
     app_registry := app_registry a |}.

(** [%T] of a model: the dynamic type's string, [<nil>] for nil. *)
Definition type_string (model : option Type_) : string :=
  match model with None => "<nil>" | Some t => String_ t end.

(** How a call ends: returning an error (or nil), or panicking. *)
Inductive Result := RNil | RErr (msg : string) | RPanic (msg : string).

Definition nil_deref : string := "invalid memory address or nil pointer dereference".

(** The loop of [Register]; [st] is the state of package [meta]. *)
Fixpoint register_loop (d : DBH) (st : State) (w : W) (a : App) (models : list (option Type_))
    : State * W * App * Result :=
  match models with
  | [] => (st, w, a, RNil)
  | model :: models' =>
      match Parse st model with
      | (st1, Panicked msg) => (st1, w, a, RPanic msg)
      | (st1, Returned _ (Some err)) =>
          (st1, w, a,
           RErr (String.append "failed to parse model "
                   (String.append (type_string model) (String.append ": " err))))
      | (st1, Returned p None) =>
          match AutoMigrate d w model with
          | (w1, Some err) =>
              (st1, w1, a,
               RErr (String.append "failed to migrate model "
                       (String.append (type_string model) (String.append ": " err))))
          | (w1, None) =>
              match p with
              | None => (st1, w1, a, RPanic nil_deref)
              | Some p =>
                  match heap st1 !! p with
                  | None => (st1, w1, a, RPanic nil_deref)
                  | Some em =>
                      register_loop d st1 w1
                        (set_registry a (<[em_Name em := p]> (app_registry a))) models'
                  end
              end
          end
      end
  end.

(** [Register]. *)
Definition Register (st : State) (w : W) (a : App) (models : list (option Type_))
    : State * W * App * Result :=
  match app_db a with
  | None => (st, w, a, RErr "database not configured: use WithDB option")
  | Some d => register_loop d st w a models
  end.

(** The [http.Server] that [Start] runs [ListenAndServe] on. *)
Record Server := { srv_Addr : string; srv_Handler : option Handler }.

(** [Start], up to the [ListenAndServe] call: the server it starts. *)
Definition Start (a : App) : App * Server :=
  let a := if String.eqb (cfg_addr (app_cfg a)) ""
           then set_cfg a (WithAddress ":8080" (app_cfg a)) else a in
  (a, {| srv_Addr := cfg_addr (app_cfg a); srv_Handler := app_router a |}).

(** How [Run] ends: an error, a panic, or serving. *)
Inductive RunResult := RunErr (msg : string) | RunPanic (msg : string) | RunServe (srv : Server).

(** [Run]. *)
Definition Run (st : State) (w : W) (models : list (option Type_)) : State * W * RunResult :=
  let app := New [] in
  match Register st w app models with
  | (st', w', _, RErr e) => (st', w', RunErr e)
  | (st', w', _, RPanic m) => (st', w', RunPanic m)
  | (st', w', app', RNil) => (st', w', RunServe (snd (Start app')))
  end.

(** The options a caller builds with the constructors of [options.go]. *)
Inductive OptSyn := ODB (d : option DBH) | OAddr (addr : string) | OMw (m : Handler -> Handler).

Definition denote (o : OptSyn) : Option :=
  match o with ODB d => WithDB d | OAddr a => WithAddress a | OMw m => WithMiddleware m end.

(** The last [WithDB] and [WithAddress] values, and the middlewares in order. *)
Fixpoint last_db (os : list OptSyn) (dflt : option DBH) : option DBH :=
  match os with [] => dflt | ODB d :: os' => last_db os' d | _ :: os' => last_db os' dflt end.

Fixpoint last_addr (os : list OptSyn) (dflt : string) : string :=
  match os with [] => dflt | OAddr a :: os' => last_addr os' a | _ :: os' => last_addr os' dflt end.

Fixpoint mws_of (os : list OptSyn) : list (Handler -> Handler) :=
  match os with [] => [] | OMw m :: os' => m :: mws_of os' | _ :: os' => mws_of os' end.

End App.

Arguments config : clear implicits.
Arguments App : clear implicits.
Arguments Server : clear implicits.
Arguments OptSyn : clear implicits.

End Goblar.

(* ------------------------------------------------------------------ *)
(** ** The [Router] wrapper and its middlewares ([internal/http]) *)

Module Middleware.

Section Mux.

Context {Handler : Type}.

(** The part of a [chi.Mux] that middlewares touch: its [Use] list and
    the routes registered on it (the route handler is built, and [Use]
    refused, as soon as the first route is added). *)
Record Mux := { mux_middlewares : list (Handler -> Handler); mux_routes : Routes.Router }.

(** [Router]: the embedded [*chi.Mux] and the pending middlewares. *)
Record Router := { mux : Mux; middlewares : list (Handler -> Handler) }.

Definition New : Router :=
  {| mux := {| mux_middlewares := []; mux_routes := [] |}; middlewares := [] |}.

Definition AddMiddleware (r : Router) (m : Handler -> Handler) : Router :=
  {| mux := mux r; middlewares := middlewares r ++ [m] |}.

Definition use_panic : string := "chi: all middlewares must be defined before routes on a mux".

(** [chi.Mux.Use]: panics once a route is registered. *)
Definition Use (mx : Mux) (m : Handler -> Handler) : Mux + string :=
  match mux_routes mx with
  | [] => inl {| mux_middlewares := mux_middlewares mx ++ [m]; mux_routes := [] |}
  | _ :: _ => inr use_panic
  end.

(** [for i := len(r.middlewares) - 1; i >= 0; i-- { r.Use(r.middlewares[i]) }];
    [i] is the number of iterations left, the index used is [i - 1]. *)
Fixpoint apply_loop (ms : list (Handler -> Handler)) (i : nat) (mx : Mux) : Mux + string :=
  match i with
  | 0 => inl mx
  | S i' =>
      match Use mx (nth i' ms (fun h => h)) with
      | inl mx' => apply_loop ms i' mx'
      | inr msg => inr msg
      end
  end.

(** [ApplyMiddleware]; [inr] is a panic. *)
Definition ApplyMiddleware (r : Router) : Router + string :=
  match apply_loop (middlewares r) (List.length (middlewares r)) (mux r) with
  | inl mx => inl {| mux := mx; middlewares := middlewares r |}
  | inr msg => inr msg
  end.

(** chi's [chain(mx.middlewares, endpoint)]: the first [Use]d middleware
    is the outermost. *)
Definition chain (mws : list (Handler -> Handler)) (endpoint : Handler) : Handler :=
  fold_right (fun m h => m h) endpoint mws.

(** [RegisterEntityRoutes] acting on the router's embedded mux. *)
Definition RegisterEntityRoutes (r : Router) (meta : EntityMeta) : Router :=
  {| mux := {| mux_middlewares := mux_middlewares (mux r);
               mux_routes := Routes.RegisterEntityRoutes (mux_routes (mux r)) meta |};
     middlewares := middlewares r |}.

End Mux.

Arguments Router : clear implicits.
Arguments Mux : clear implicits.

End Middleware.

(* ------------------------------------------------------------------ *)
(** ** The CRUD handlers ([internal/http/handlers.go]) *)

Module Handlers.

(** [strconv.ParseInt(s, 10, 64)]: an optional sign, then decimal
    digits only, within the range of [int64]. *)
Fixpoint digits_val (l : list ascii) (acc : Z) : option Z :=
  match l with
  | [] => Some acc
  | c :: l' =>
      if Nat.leb 48 (code c) && Nat.leb (code c) 57
      then digits_val l' (acc * 10 + Z.of_nat (code c - 48))%Z
      else None
  end.

(** [strconv.ParseUint(s, 10, 64)]. *)
Definition ParseUint (l : list ascii) : option Z :=
  match l with
  | [] => None
  | _ => match digits_val l 0 with
         | Some un => if (un >? 2 ^ 64 - 1)%Z then None else Some un
         | None => None
         end
  end.

Definition ParseInt (s : string) : option Z :=
  match list_ascii_of_string s with
  | [] => None
  | c :: rest =>
      let '(neg, ds) :=
        if ascii_eqb c "+" then (false, rest)
        else if ascii_eqb c "-" then (true, rest)
        else (false, c :: rest) in
      match ParseUint ds with
      | None => None
      | Some un =>
          if negb neg && (un >=? 2 ^ 63)%Z then None
          else if neg && (un >? 2 ^ 63)%Z then None
          else Some (if neg then (- un)%Z else un)
      end
  end.

(** What a handler writes: [http.Error(w, msg, code)], a JSON-encoded
    entity or slice with a status, or an empty [204]. *)
Inductive Response {E : Type} :=
| HttpError (msg : string) (code : nat)
| JSON (code : nat) (body : E)
| JSONList (body : list E)
| NoContent.

(** The observable steps of a request: hook methods run and queries sent. *)
Inductive Event :=
| EHook (k : Hooks.Hook)
| ECreate
| EFind
| EFirst (id : Z)
| EUpdates (id : Z)   (* [Model(entity).Where("id = ?", id).Updates(entity)] *)
| EDelete (id : Z).

Section Handlers.

Context {S Ctx Tx W Body : Type}.

Abbreviation Entity := (Hooks.Entity S Ctx Tx string).

(** [h.db]: handed to the hooks as [tx]; its queries act on [W]. *)
Context (db : Tx).

(** [makeEntityInstance]: a new zero [*T] for [entityMeta.Type]. *)
Context (makeEntityInstance : EntityMeta -> Entity).

(** [json.NewDecoder(r.Body).Decode(entity)]. *)
Context (Decode : Body -> Entity -> Entity * option string).

(** The [gorm] calls, after [WithContext(ctx)], and [err.Error()]. *)
Context (db_Create : Ctx -> W -> Entity -> W * Entity * option Repo.DBError).
Context (db_Find : Ctx -> W -> list Entity * option Repo.DBError).
Context (db_First : Ctx -> W -> Entity -> Z -> Entity * option Repo.DBError).
(** [db_Updates ctx w e id] is [Model(e).Where("id = ?", id).Updates(e)]:
    GORM's [Model(e)] also adds [e]'s primary key to the condition when it
    is non-zero, so the rows written depend on the entity as well as on
    [id]; the model leaves this to [db_Updates]. *)
Context (db_Updates : Ctx -> W -> Entity -> Z -> W * option Repo.DBError).
Context (db_Delete : Ctx -> W -> Entity -> Z -> W * option Repo.DBError).
Context (Error : Repo.DBError -> string).

Definition hook_events (hs : list Hooks.Hook) : list Event := map EHook hs.

(** The 404/500 choice after [First]. *)
Definition first_error (e : Repo.DBError) : @Response Entity :=
  match e with
  | Repo.ErrRecordNotFound => HttpError "Not found" 404
  | _ => HttpError (Error e) 500
  end.

Definition CreateHandler (meta : EntityMeta) (ctx : Ctx) (body : Body) (w : W)
    : W * @Response Entity * list Event :=
  let entity := makeEntityInstance meta in
  match Decode body entity with
  | (_, Some _) => (w, HttpError "Invalid request body" 400, [])
  | (entity, None) =>
      match Hooks.CallBeforeCreate ctx entity db with
      | (_, Some err, hs) => (w, HttpError err 500, hook_events hs)
      | (entity, None, hs) =>
          match db_Create ctx w entity with
          | (w1, _, Some err) => (w1, HttpError (Error err) 500, hook_events hs ++ [ECreate])
          | (w1, entity, None) =>
              match Hooks.CallAfterCreate ctx entity db with
              | (_, Some err, hs2) =>
                  (w1, HttpError err 500, hook_events hs ++ ECreate :: hook_events hs2)
              | (entity, None, hs2) =>
                  (w1, JSON 201 entity, hook_events hs ++ ECreate :: hook_events hs2)
              end
          end
      end
  end.

Definition ListHandler (meta : EntityMeta) (ctx : Ctx) (w : W)
    : W * @Response Entity * list Event :=
  match db_Find ctx w with
  | (_, Some err) => (w, HttpError (Error err) 500, [EFind])
  | (entities, None) => (w, JSONList entities, [EFind])
  end.

Definition GetHandler (meta : EntityMeta) (ctx : Ctx) (idStr : string) (w : W)
    : W * @Response Entity * list Event :=
  match ParseInt idStr with
  | None => (w, HttpError "Invalid ID" 400, [])
  | Some id =>
      let entity := makeEntityInstance meta in
      match db_First ctx w entity id with
      | (_, Some err) => (w, first_error err, [EFirst id])
      | (entity, None) => (w, JSON 200 entity, [EFirst id])
      end
  end.

Definition UpdateHandler (meta : EntityMeta) (ctx : Ctx) (idStr : string) (body : Body) (w : W)
    : W * @Response Entity * list Event :=
  match ParseInt idStr with
  | None => (w, HttpError "Invalid ID" 400, [])
  | Some id =>
      let entity := makeEntityInstance meta in
      match Decode body entity with
      | (_, Some _) => (w, HttpError "Invalid request body" 400, [])
      | (entity, None) =>
          match Hooks.CallBeforeUpdate ctx entity db with
          | (_, Some err, hs) => (w, HttpError err 500, hook_events hs)
          | (entity, None, hs) =>
              match db_Updates ctx w entity id with
              | (w1, Some err) =>
                  (w1, HttpError (Error err) 500, hook_events hs ++ [EUpdates id])
              | (w1, None) =>
                  match Hooks.CallAfterUpdate ctx entity db with
                  | (_, Some err, hs2) =>
                      (w1, HttpError err 500, hook_events hs ++ EUpdates id :: hook_events hs2)
                  | (entity, None, hs2) =>
                      (w1, JSON 200 entity, hook_events hs ++ EUpdates id :: hook_events hs2)
                  end
              end
          end
      end
  end.

Definition DeleteHandler (meta : EntityMeta) (ctx : Ctx) (idStr : string) (w : W)
    : W * @Response Entity * list Event :=
  match ParseInt idStr with
  | None => (w, HttpError "Invalid ID" 400, [])
  | Some id =>
      let entity := makeEntityInstance meta in
      match db_First ctx w entity id with
      | (_, Some err) => (w, first_error err, [EFirst id])
      | (entity, None) =>
          match Hooks.CallBeforeDelete ctx entity db with
          | (_, Some err, hs) => (w, HttpError err 500, EFirst id :: hook_events hs)
          | (entity, None, hs) =>
              match db_Delete ctx w entity id with
              | (w1, Some err) =>
                  (w1, HttpError (Error err) 500, EFirst id :: hook_events hs ++ [EDelete id])
              | (w1, None) =>
                  match Hooks.CallAfterDelete ctx entity db with
                  | (_, Some err, hs2) =>
                      (w1, HttpError err 500,
                       EFirst id :: hook_events hs ++ EDelete id :: hook_events hs2)
                  | (_, None, hs2) =>
                      (w1, NoContent, EFirst id :: hook_events hs ++ EDelete id :: hook_events hs2)
                  end
              end
          end
      end
  end.

End Handlers.

Arguments Response : clear implicits.

End Handlers.

(* ------------------------------------------------------------------ *)
(** ** Entities of the README, the tests and [main.go] *)

Module Entities.

Definition uintT := RBasic "uint" "uint".
Definition stringT := RBasic "string" "string".
Definition float64T := RBasic "float64" "float64".
Definition intT := RBasic "int" "int".

(** [type User struct { ID uint `gorm:"primaryKey" go-blar:"pk"`; Name, Email string }] *)
Definition User := RStruct "User" "main.User"
  [Field "ID" "" [("gorm", "primaryKey"); ("go-blar", "pk")] uintT [0];
   Field "Name" "" [] stringT [1];
   Field "Email" "" [] stringT [2]].

(** [type Product struct { ID uint `...pk`; Name string; Price float64 }] *)
Definition Product := RStruct "Product" "main.Product"
  [Field "ID" "" [("gorm", "primaryKey"); ("go-blar", "pk")] uintT [0];
   Field "Name" "" [] stringT [1];
   Field "Price" "" [] float64T [2]].

(** Two fields marked primary key, one per annotation namespace. *)
Definition Account := RStruct "Account" "main.Account"
  [Field "ID" "" [("go-blar", "pk")] uintT [0];
   Field "Code" "" [("gorm", "primaryKey")] stringT [1];
   Field "Name" "" [] stringT [2]].

(** A [table:] fragment in the [gorm] tag of an ordinary field. *)
Definition Member := RStruct "Member" "main.Member"
  [Field "ID" "" [("gorm", "primaryKey;table:people"); ("go-blar", "pk")] uintT [0];
   Field "Name" "" [] stringT [1]].

(** A marker field named [gorm] carrying the table name. *)
Definition Customer := RStruct "Customer" "main.Customer"
  [Field "gorm" "main" [("gorm", "table:clients")] (RStruct "" "struct {}" []) [0];
   Field "ID" "" [("go-blar", "pk")] uintT [1]].

(** The marker promoted from an embedded struct ([type Client struct
    { TableBase; ID uint }]), and two embedded structs declaring it at
    the same depth ([type Both struct { TableBase; *OtherBase; ID uint }]). *)
Definition TableBase := RStruct "TableBase" "main.TableBase"
  [Field "gorm" "main" [("gorm", "table:clients")] (RStruct "" "struct {}" []) [0]].

Definition OtherBase := RStruct "OtherBase" "main.OtherBase"
  [Field "gorm" "main" [("gorm", "table:others")] (RStruct "" "struct {}" []) [0]].

Definition Client := RStruct "Client" "main.Client"
  [MkStructField "TableBase" "" [] TableBase [0] true;
   Field "ID" "" [("go-blar", "pk")] uintT [1]].

Definition Both := RStruct "Both" "main.Both"
  [MkStructField "TableBase" "" [] TableBase [0] true;
   MkStructField "OtherBase" "" [] (RPtr OtherBase) [1] true;
   Field "ID" "" [("go-blar", "pk")] uintT [2]].

(** Aggregates declared with [count:] and [sum:]. *)
Definition Order := RStruct "Order" "main.Order"
  [Field "ID" "" [("go-blar", "pk")] uintT [0];
   Field "Items" "" [("go-blar", "list")] (RBasic "" "[]main.Item") [1];
   Field "ItemCount" "" [("go-blar", "count:Items")] intT [2];
   Field "Total" "" [("go-blar", "sum:Items.Price")] float64T [3]].

(** The two local [Product] types of [parse_test.go]
    ([TestParseBasicStruct], [TestParseFieldTags]): both print as
    [meta.Product]. *)
Definition ProductBasic := RStruct "Product" "meta.Product"
  [Field "ID" "" [("gorm", "primaryKey"); ("go-blar", "pk")] uintT [0];
   Field "Name" "" [] stringT [1];
   Field "Price" "" [] float64T [2]].

Definition ProductTags := RStruct "Product" "meta.Product"
  [Field "ID" "" [("go-blar", "pk")] uintT [0];
   Field "Name" "" [] stringT [1];
   Field "Secret" "" [("go-blar", "hidden")] stringT [2];
   Field "ReadOnly" "" [("go-blar", "readonly")] stringT [3];
   Field "Items" "" [("go-blar", "list")] (RBasic "" "[]string") [4]].

(** A column name containing [primaryKey]. *)
Definition RefField :=
  Field "Ref" "" [("gorm", "column:notprimaryKeyed")] stringT [0].

(** [AutoMigrate] stand-ins: one that always succeeds and one that
    fails on [*main.Product]. *)
Definition migrate_ok (d : unit) (w : unit) (m : option Type_) : unit * option string := (w, None).

Definition migrate_fail_product (d : unit) (w : unit) (m : option Type_)
    : unit * option string :=
  if String.eqb (Goblar.type_string m) "*main.Product"
  then (w, Some "no such table") else (w, None).

Definition register_two : State * unit * Goblar.App unit unit * Goblar.Result :=
  Goblar.Register migrate_ok init_state tt
    (@Goblar.New unit unit [Goblar.denote (Goblar.ODB (Some tt))])
    [Some (RPtr User); Some (RPtr Product)].

(** Fixtures for the handlers: a request body decoded without error,
    a table of [n] rows, the hook mock set to fail, and an entity whose
    only hook is a failing [AfterCreate]. *)
Definition decode_ok (b : unit) (e : Hooks.Entity Hooks.MockState unit unit string)
    : Hooks.Entity Hooks.MockState unit unit string * option string := (e, None).

Definition insert_row (ctx : unit) (n : nat) (e : Hooks.Entity Hooks.MockState unit unit string)
    : nat * Hooks.Entity Hooks.MockState unit unit string * option Repo.DBError := (S n, e, None).

Definition first_missing (ctx : unit) (n : nat) (e : Hooks.Entity Hooks.MockState unit unit string)
    (id : Z) : Hooks.Entity Hooks.MockState unit unit string * option Repo.DBError :=
  (e, Some Repo.ErrRecordNotFound).

Definition first_found (ctx : unit) (n : nat) (e : Hooks.Entity Hooks.MockState unit unit string)
    (id : Z) : Hooks.Entity Hooks.MockState unit unit string * option Repo.DBError := (e, None).

Definition delete_row (ctx : unit) (n : nat) (e : Hooks.Entity Hooks.MockState unit unit string)
    (id : Z) : nat * option Repo.DBError := (Nat.pred n, None).

Definition update_row (ctx : unit) (n : nat) (e : Hooks.Entity Hooks.MockState unit unit string)
    (id : Z) : nat * option Repo.DBError := (n, None).



Definition db_error_string (e : Repo.DBError) : string :=
  match e with
  | Repo.ErrInvalidDB => "invalid db"
  | Repo.ErrRecordNotFound => "record not found"
  | Repo.DriverError msg => msg
  end.

Definition user_meta : EntityMeta :=
  {| em_Type := User; em_Name := "User"; TableName := "users"; PKField := None;
     Fields := []; em_Nested := []; Aggregates := [] |}.

End Entities.

Import Entities.

(* ================================================================== *)
(** * Properties *)

(* ------------------------------------------------------------------ *)
(** ** Naming transform *)

Lemma skipn_cons_nth (l : list ascii) (i : nat) (r : ascii) (rest : list ascii) :
  skipn i l = r :: rest -> nth i l " "%char = r /\ skipn (S i) l = rest.
Proof.
  revert l. induction i as [|i IH]; intros [|c l] H; simpl in *; try discriminate.
  - injection H as -> ->. split; reflexivity.
  - apply IH in H. exact H.
Qed.

Lemma underscore_not_upper (r : ascii) : ascii_eqb r "_" = true -> is_upper r = false.
Proof.
  unfold ascii_eqb, is_upper. intros H. apply Nat.eqb_eq in H. rewrite H. reflexivity.
Qed.

(** The loop of [toSnakeCase] writes [piece rule_code runes i] for every
    index [i] it visits. *)
Lemma loop_pieces (runes rest result : list ascii) (i : nat) :
  skipn i runes = rest ->
  loop runes i rest result =
  result ++ flat_map (piece rule_code runes) (seq i (List.length rest)).
Proof.
  revert i result. induction rest as [|r rest IH]; intros i result Hd.
  - simpl. rewrite app_nil_r. reflexivity.
  - destruct (skipn_cons_nth _ _ _ _ Hd) as [Hr Hd'].
    simpl. unfold piece at 1, rule_code, rune_at. rewrite Hr.
    destruct (Nat.eqb i 0) eqn:Hi.
    + apply Nat.eqb_eq in Hi. subst i. simpl.
      rewrite (IH 1 _ Hd'), <- app_assoc. reflexivity.
    + assert (Hlt : Nat.ltb 0 i = true) by (apply Nat.ltb_lt; apply Nat.eqb_neq in Hi; lia).
      rewrite Hlt. simpl.
      destruct (ascii_eqb r "_") eqn:Hu.
      * rewrite (underscore_not_upper _ Hu). simpl.
        rewrite (IH (S i) _ Hd'), <- app_assoc. reflexivity.
      * destruct (is_upper r); simpl;
        destruct (ascii_eqb (nth (i - 1) runes " "%char) "_"); simpl;
        destruct (is_lower (nth (i - 1) runes " "%char)); simpl;
        destruct (Nat.ltb (i + 1) (List.length runes)); simpl;
        destruct (is_lower (nth (i + 1) runes " "%char)); simpl;
        rewrite (IH (S i) _ Hd'), <- ?app_assoc; reflexivity.
Qed.

(** C4 (amended): [toSnakeCase] lower-cases the identifier after placing an
    underscore before rune [i] exactly when [i > 0], rune [i] is an
    uppercase letter, rune [i-1] is not an underscore, and either rune
    [i-1] is lowercase or rune [i+1] exists and is lowercase; underscores
    already present are copied.  The table of the tests holds. *)
Theorem toSnakeCase_rule (s : string) :
  toSnakeCase s = snake_by rule_code s /\
  toSnakeCase "UserName" = "user_name" /\ toSnakeCase "ID" = "id" /\
  toSnakeCase "Product" = "product" /\ toSnakeCase "HTTPServer" = "http_server".
Proof.
  split; [|repeat split; reflexivity].
  unfold toSnakeCase, snake_by.
  rewrite (loop_pieces (list_ascii_of_string s) (list_ascii_of_string s) [] 0 eq_refl).
  reflexivity.
Qed.

(** C4 (counterexample): on [A1Bc] the previous rune of [B] is a digit,
    neither lowercase nor uppercase, yet the code inserts an underscore:
    the rule as the claim words it gives [a1bc], the code [a1_bc]. *)
Lemma toSnakeCase_digit_boundary :
  toSnakeCase "A1Bc" = "a1_bc" /\ snake_by rule_claim "A1Bc" = "a1bc".
Proof. split; reflexivity. Qed.

(* ------------------------------------------------------------------ *)
(** ** The registry cache *)

Lemma Parse_hit (st : State) (t0 : Type_) (p : ptr) :
  registry st !! key_of t0 = Some p ->
  Parse st (Some t0) = (st, Returned (Some p) None).
Proof. unfold key_of. intros H. simpl. rewrite H. reflexivity. Qed.

(** A successful [Parse] leaves its result registered under the key. *)
Lemma Parse_registers (st st' : State) (v : option Type_) (p : ptr) (err : option string) :
  Parse st v = (st', Returned (Some p) err) ->
  exists t0, v = Some t0 /\ registry st' !! key_of t0 = Some p.
Proof.
  destruct v as [t0|]; simpl; [|discriminate].
  intros H. exists t0. split; [reflexivity|]. unfold key_of.
  destruct (registry st !! String_ (deref t0)) as [q|] eqn:Hk.
  - injection H as <- <-. exact Hk.
  - destruct (deref t0); try discriminate.
    injection H as <- <-. simpl. rewrite lookup_insert_eq. reflexivity.
Qed.

(** [Parse] never overwrites a registered key. *)
Lemma Parse_keeps (st : State) (v : option Type_) (k : string) (p : ptr) :
  registry st !! k = Some p -> registry (fst (Parse st v)) !! k = Some p.
Proof.
  intros Hk. destruct v as [t0|]; simpl; [|exact Hk].
  destruct (registry st !! String_ (deref t0)) as [q|] eqn:Hq; simpl; [exact Hk|].
  destruct (deref t0) eqn:Ht; simpl; try exact Hk.
  rewrite lookup_insert_ne; [exact Hk|].
  intros Heq. subst k. simpl in Hq. congruence.
Qed.

Lemma run_keeps (cs : list Call) (st : State) (k : string) (p : ptr) :
  no_clear cs = true -> registry st !! k = Some p -> registry (run st cs) !! k = Some p.
Proof.
  unfold run. revert st. induction cs as [|c cs IH]; intros st Hnc Hk; simpl in *.
  - exact Hk.
  - destruct c as [e|]; simpl in Hnc; [|discriminate].
    apply IH; [exact Hnc|]. apply Parse_keeps. exact Hk.
Qed.

(** C1: once [Parse] has returned the descriptor at address [p] for an
    entity of type [t0] (a struct or a pointer to it), any later [Parse]
    of a value or a pointer of the same struct type, after any number of
    other [Parse] calls and no [ClearRegistry], returns the same address
    [p] and leaves the state as it is. *)
Theorem Parse_cached_same_instance (st st1 : State) (t0 t1 : Type_) (p : ptr)
    (err : option string) (cs : list Call) :
  Parse st (Some t0) = (st1, Returned (Some p) err) ->
  deref t1 = deref t0 ->
  no_clear cs = true ->
  Parse (run st1 cs) (Some t1) = (run st1 cs, Returned (Some p) None).
Proof.
  intros H Ht Hnc. destruct (Parse_registers _ _ _ _ _ H) as [t0' [Heq Hk]].
  injection Heq as <-.
  apply Parse_hit. unfold key_of in *. rewrite Ht. apply run_keeps; assumption.
Qed.

Lemma Parse_cached_same_instance_witness :
  let st1 := fst (Parse init_state (Some (RPtr User))) in
  let cs := [CParse (Some (RPtr Product)); CParse (Some Account)] in
  Parse (run st1 cs) (Some User) = (run st1 cs, Returned (Some 1%positive) None).
Proof.
  apply (Parse_cached_same_instance init_state _ (RPtr User) User 1%positive None).
  - reflexivity.
  - reflexivity.
  - reflexivity.
Defined.

(* ------------------------------------------------------------------ *)
(** ** The descriptor built on a cache miss *)

Lemma parse_step_Fields (fs : list StructField) (m : EntityMeta) :
  Fields (fold_left parse_step fs m) = Fields m ++ map parseField (List.filter exported fs).
Proof.
  revert m. induction fs as [|sf fs IH]; intros m; simpl.
  - rewrite app_nil_r. reflexivity.
  - rewrite IH. unfold parse_step, exported.
    destruct (String.eqb (sfPkgPath sf) ""); simpl.
    + rewrite <- app_assoc. reflexivity.
    + reflexivity.
Qed.

Lemma parse_step_PKField (fs : list StructField) (m : EntityMeta) :
  PKField m = last (List.filter IsPK (Fields m)) ->
  PKField (fold_left parse_step fs m) =
  last (List.filter IsPK (Fields (fold_left parse_step fs m))).
Proof.
  revert m. induction fs as [|sf fs IH]; intros m Hm; simpl; [exact Hm|].
  apply IH. unfold parse_step.
  destruct (negb (String.eqb (sfPkgPath sf) "")); [exact Hm|]. simpl.
  rewrite List.filter_app. simpl.
  destruct (IsPK (parseField sf)); simpl.
  - rewrite last_snoc. reflexivity.
  - rewrite app_nil_r. exact Hm.
Qed.

Lemma parse_step_TableName (fs : list StructField) (m : EntityMeta) :
  TableName (fold_left parse_step fs m) = TableName m.
Proof.
  revert m. induction fs as [|sf fs IH]; intros m; simpl; [reflexivity|].
  rewrite IH. unfold parse_step. destruct (negb _); reflexivity.
Qed.

Lemma parse_step_Aggregates (fs : list StructField) (m : EntityMeta) :
  Aggregates (fold_left parse_step fs m) = Aggregates m.
Proof.
  revert m. induction fs as [|sf fs IH]; intros m; simpl; [reflexivity|].
  rewrite IH. unfold parse_step. destruct (negb _); reflexivity.
Qed.

(** On a cache miss for a struct, [Parse] stores the fold of the field
    loop over a descriptor with no fields, no primary key, no aggregates
    and the resolved table name. *)
Lemma parse_miss_struct (st : State) (t0 : Type_) (n str : string)
    (fields : list StructField) :
  registry st !! key_of t0 = None ->
  deref t0 = RStruct n str fields ->
  exists m0,
    parsed_meta st (Some t0) = Some (fold_left parse_step fields m0) /\
    Fields m0 = [] /\ PKField m0 = None /\ Aggregates m0 = [] /\
    TableName m0 = match table_override fields with
                   | Some tn => tn
                   | None => String.append (toSnakeCase n) "s"
                   end.
Proof.
  unfold key_of, parsed_meta. intros Hk Ht. simpl. rewrite Ht in *. simpl in *.
  rewrite Hk. simpl. unfold table_override.
  destruct (field_by_name fields "gorm") as [g|]; simpl.
  - destruct (String.eqb (parseGormTag (Get (sfTag g) "gorm")) "") eqn:He; simpl.
    + eexists. rewrite lookup_insert_eq. split; [reflexivity|].
      repeat split; reflexivity.
    + eexists. rewrite lookup_insert_eq. split; [reflexivity|].
      repeat split; reflexivity.
  - eexists. rewrite lookup_insert_eq. split; [reflexivity|].
    repeat split; reflexivity.
Qed.

(* ------------------------------------------------------------------ *)
(** ** What [Parse] returns *)

(** C2 (amended): [Parse] never returns a non-nil error.  A nil argument
    panics; a struct or pointer to struct yields a descriptor; any other
    argument returns the descriptor cached under its type string, and
    panics ([FieldByName] of a non-struct type) when none is cached. *)
Theorem Parse_outcomes (st : State) (v : option Type_) :
  (forall m e, snd (Parse st v) <> Returned m (Some e)) /\
  match v with
  | None => exists msg, snd (Parse st v) = Panicked msg
  | Some t0 =>
      match deref t0 with
      | RStruct _ _ _ => exists p, snd (Parse st v) = Returned (Some p) None
      | _ =>
          match registry st !! key_of t0 with
          | Some p => snd (Parse st v) = Returned (Some p) None
          | None => exists msg, snd (Parse st v) = Panicked msg
          end
      end
  end.
Proof.
  unfold key_of. destruct v as [t0|]; simpl.
  2:{ split; [intros m e; discriminate | eexists; reflexivity]. }
  destruct (registry st !! String_ (deref t0)) as [q|] eqn:Hk.
  - split; [intros m e; discriminate|].
    destruct (deref t0); simpl in *; try reflexivity. eexists; reflexivity.
  - destruct (deref t0) eqn:Ht; simpl in *; rewrite ?Hk.
    all: split; [intros m e; discriminate | eexists; reflexivity].
Qed.

(** C2 (counterexample): [Parse(42)] and [Parse(nil)] return no
    [ParseError]: both panic. *)
Lemma Parse_primitive_panics :
  snd (Parse init_state (Some intT)) = Panicked "reflect: FieldByName of non-struct type" /\
  snd (Parse init_state None) = Panicked "invalid memory address or nil pointer dereference".
Proof. split; reflexivity. Qed.

(** C3 (amended): on a cache miss for a struct, the descriptor's fields are
    the parsed exported fields in declaration order, and its primary-key
    reference is the LAST of them marked primary key (none if none is). *)
Theorem Parse_PKField_last (st : State) (t0 : Type_) (n str : string)
    (fields : list StructField) :
  registry st !! key_of t0 = None ->
  deref t0 = RStruct n str fields ->
  exists m, parsed_meta st (Some t0) = Some m /\
    Fields m = map parseField (List.filter exported fields) /\
    PKField m = last (List.filter IsPK (Fields m)).
Proof.
  intros Hk Ht.
  destruct (parse_miss_struct st t0 n str fields Hk Ht) as (m0 & Hm & HF & HP & _).
  exists (fold_left parse_step fields m0). split; [exact Hm|]. split.
  - rewrite parse_step_Fields, HF. reflexivity.
  - apply parse_step_PKField. rewrite HF, HP. reflexivity.
Qed.

Lemma Parse_PKField_last_witness :
  exists m, parsed_meta init_state (Some (RPtr User)) = Some m /\
    option_map fm_Name (PKField m) = Some "ID".
Proof.
  destruct (Parse_PKField_last init_state (RPtr User) "User" "main.User" _ eq_refl eq_refl)
    as (m & Hm & HF & HP).
  exists m. split; [exact Hm|]. rewrite HP, HF. reflexivity.
Defined.

(** C3 (counterexample): [Account] marks [ID] (go-blar [pk]) and then
    [Code] (gorm [primaryKey]); the primary-key reference is [Code]. *)
Lemma Parse_PKField_not_first :
  match parsed_meta init_state (Some (RPtr Account)) with
  | Some m =>
      option_map fm_Name (PKField m) = Some "Code" /\
      option_map fm_Name (head (List.filter IsPK (Fields m))) = Some "ID"
  | None => False
  end.
Proof. vm_compute. split; reflexivity. Qed.

(** C5 (amended): on a cache miss for a struct, the table name is the
    override read from the [gorm] tag of the field named [gorm] that
    [FieldByName] finds, declared directly or promoted from an embedded
    struct (its first [table:] fragment, when non-empty), else the snake_case of the type's
    name followed by [s]. *)
Theorem Parse_TableName (st : State) (t0 : Type_) (n str : string)
    (fields : list StructField) :
  registry st !! key_of t0 = None ->
  deref t0 = RStruct n str fields ->
  exists m, parsed_meta st (Some t0) = Some m /\
    TableName m = match table_override fields with
                  | Some tn => tn
                  | None => String.append (toSnakeCase n) "s"
                  end.
Proof.
  intros Hk Ht.
  destruct (parse_miss_struct st t0 n str fields Hk Ht) as (m0 & Hm & _ & _ & _ & HT).
  exists (fold_left parse_step fields m0). split; [exact Hm|].
  rewrite parse_step_TableName. exact HT.
Qed.

Lemma Parse_TableName_witness :
  (exists m, parsed_meta init_state (Some (RPtr User)) = Some m /\ TableName m = "users") /\
  (exists m, parsed_meta init_state (Some (RPtr Product)) = Some m /\
             TableName m = "products") /\
  (exists m, parsed_meta init_state (Some (RPtr Customer)) = Some m /\
             TableName m = "clients") /\
  (exists m, parsed_meta init_state (Some (RPtr Client)) = Some m /\
             TableName m = "clients") /\
  (exists m, parsed_meta init_state (Some (RPtr Both)) = Some m /\
             TableName m = "boths").
Proof.
  split; [|split; [|split; [|split]]].
  - destruct (Parse_TableName init_state (RPtr User) "User" "main.User" _ eq_refl eq_refl)
      as (m & Hm & HT).
    exists m. split; [exact Hm|]. rewrite HT. reflexivity.
  - destruct (Parse_TableName init_state (RPtr Product) "Product" "main.Product" _
                eq_refl eq_refl) as (m & Hm & HT).
    exists m. split; [exact Hm|]. rewrite HT. reflexivity.
  - destruct (Parse_TableName init_state (RPtr Customer) "Customer" "main.Customer" _
                eq_refl eq_refl) as (m & Hm & HT).
    exists m. split; [exact Hm|]. rewrite HT. reflexivity.
  - destruct (Parse_TableName init_state (RPtr Client) "Client" "main.Client" _
                eq_refl eq_refl) as (m & Hm & HT).
    exists m. split; [exact Hm|]. rewrite HT. vm_compute. reflexivity.
  - destruct (Parse_TableName init_state (RPtr Both) "Both" "main.Both" _
                eq_refl eq_refl) as (m & Hm & HT).
    exists m. split; [exact Hm|]. rewrite HT. vm_compute. reflexivity.
Defined.

(** C5 (counterexample): a [table:people] fragment in the [gorm] tag of the
    [ID] field is not read; [Member] keeps the default table [members]. *)
Lemma Parse_table_fragment_on_field_ignored :
  match parsed_meta init_state (Some (RPtr Member)) with
  | Some m => TableName m = "members" /\ TableName m <> "people"
  | None => False
  end.
Proof. vm_compute. split; [reflexivity | discriminate]. Qed.

(** C7 (code evaluation): the aggregate descriptors built for [count:] and
    [sum:] fragments are discarded, so a freshly parsed descriptor has no
    aggregates and the aggregate lookup finds nothing. *)
Theorem Parse_Aggregates_empty (st : State) (t0 : Type_) (n str : string)
    (fields : list StructField) :
  registry st !! key_of t0 = None ->
  deref t0 = RStruct n str fields ->
  exists m, parsed_meta st (Some t0) = Some m /\
    Aggregates m = [] /\ forall name, GetAggregateByName m name = None.
Proof.
  intros Hk Ht.
  destruct (parse_miss_struct st t0 n str fields Hk Ht) as (m0 & Hm & _ & _ & HA & _).
  exists (fold_left parse_step fields m0). split; [exact Hm|].
  assert (HA' : Aggregates (fold_left parse_step fields m0) = [])
    by (rewrite parse_step_Aggregates; exact HA).
  split; [exact HA'|]. intros name. unfold GetAggregateByName. rewrite HA'. reflexivity.
Qed.

Lemma Parse_Aggregates_empty_witness :
  exists m, parsed_meta init_state (Some (RPtr Order)) = Some m /\
    GetAggregateByName m "ItemCount" = None /\ GetAggregateByName m "Total" = None.
Proof.
  destruct (Parse_Aggregates_empty init_state (RPtr Order) "Order" "main.Order" _
              eq_refl eq_refl) as (m & Hm & _ & Hg).
  exists m. split; [exact Hm|]. split; apply Hg.
Defined.

(* ------------------------------------------------------------------ *)
(** ** Primary key from the [gorm] tag *)

Lemma ascii_eqb_refl (c : ascii) : ascii_eqb c c = true.
Proof. unfold ascii_eqb. apply Nat.eqb_refl. Qed.

Lemma HasPrefix_app (sub post : string) : HasPrefix (String.append sub post) sub = true.
Proof.
  induction sub as [|c sub IH]; simpl.
  - destruct post; reflexivity.
  - rewrite ascii_eqb_refl, IH. reflexivity.
Qed.

Lemma Contains_app (pre sub post : string) :
  Contains (String.append pre (String.append sub post)) sub = true.
Proof.
  induction pre as [|c pre IH]; simpl.
  - destruct sub; simpl.
    + destruct post; reflexivity.
    + pose proof (HasPrefix_app (String a sub) post) as H. simpl in H.
      destruct (String.append sub post); rewrite H; reflexivity.
  - rewrite IH. apply orb_true_r.
Qed.

(** C10: [parseField] sets [IsPK] as soon as the [gorm] tag contains the
    text [primaryKey] anywhere, inside a longer fragment included. *)
Theorem parseField_primaryKey_substring (sf : StructField) (pre post : string) :
  Get (sfTag sf) "gorm" = String.append pre (String.append "primaryKey" post) ->
  IsPK (parseField sf) = true.
Proof.
  intros H. unfold parseField. rewrite H, Contains_app. reflexivity.
Qed.

Lemma parseField_primaryKey_substring_witness : IsPK (parseField RefField) = true.
Proof.
  apply (parseField_primaryKey_substring RefField "column:not" "ed"). reflexivity.
Defined.

(* ------------------------------------------------------------------ *)
(** ** Route registration *)

Import Routes.

(** C6 (code evaluation): [RegisterEntityRoutes] appends exactly the five
    CRUD routes on the segment [toURLPath Name]; but [toURLPath] adds
    [a'-'A'+1 = 33] to every byte instead of lower-casing upper-case
    letters, so [Product] is served under a segment that is not [product]. *)
Theorem RegisterEntityRoutes_segment (router : Router) (meta : EntityMeta) :
  RegisterEntityRoutes router meta = router ++ five_routes (toURLPath (em_Name meta)) meta /\
  toURLPath "Product" =
    string_of_list_ascii (map ascii_of_nat [113; 147; 144; 133; 150; 132; 149]) /\
  toURLPath "Product" <> "product" /\
  toURLPath "user" <> "user".
Proof.
  split; [|split; [reflexivity | split; vm_compute; discriminate]].
  unfold RegisterEntityRoutes, handle, five_routes. rewrite <- !app_assoc. reflexivity.
Qed.

(* ------------------------------------------------------------------ *)
(** ** Repository without a database *)

Import Repo.

(** C8: a repository built with a nil handle answers each of its six
    operations with [ErrInvalidDB] (the no-storage-configured error) and
    makes no driver call. *)
Theorem Repository_without_db {T ID Ctx : Type} (m : ptr) (ctx : Ctx) (e : T) (id : ID) :
  let r := New (T := T) (ID := ID) None m in
  Create r ctx e = ((e, Some ErrInvalidDB), []) /\
  GetByID r ctx id = ((None, Some ErrInvalidDB), []) /\
  GetAll r ctx = ((None, Some ErrInvalidDB), []) /\
  Update r ctx e = ((e, Some ErrInvalidDB), []) /\
  Delete r ctx id = (Some ErrInvalidDB, []) /\
  Count r ctx = ((0%Z, Some ErrInvalidDB), []).
Proof. repeat split. Qed.

(* ------------------------------------------------------------------ *)
(** ** Hook dispatch *)

Import Hooks.

(** C9: each of the six dispatchers, on an entity whose type has the hook
    method, invokes it once and returns its error as is, with the
    receiver's new state; on an entity without it, it returns nil, invokes
    nothing and leaves the entity unchanged. *)
Theorem dispatch_spec {S Ctx Tx Err : Type} (k : Hook) (ctx : Ctx)
    (e : Entity S Ctx Tx Err) (tx : Tx) :
  dispatch k ctx e tx =
  match methods e k with
  | Some h => (with_state e (fst (h ctx tx (state e))), snd (h ctx tx (state e)), [k])
  | None => (e, None, [])
  end.
Proof.
  destruct k; simpl; unfold CallBeforeCreate, CallAfterCreate, CallBeforeUpdate,
    CallAfterUpdate, CallBeforeDelete, CallAfterDelete, call_if;
    destruct (methods e _) as [h|]; try reflexivity;
    destruct (h ctx tx (state e)); reflexivity.
Qed.

(** [TestMultipleHooks]: the six dispatchers in sequence on one mock
    succeed and set the six flags. *)
Lemma mock_six_hooks :
  let e0 := MockEntityWithHooks mock0 in
  let '(e1, r1, _) := CallBeforeCreate tt e0 tt in
  let '(e2, r2, _) := CallAfterCreate tt e1 tt in
  let '(e3, r3, _) := CallBeforeUpdate tt e2 tt in
  let '(e4, r4, _) := CallAfterUpdate tt e3 tt in
  let '(e5, r5, _) := CallBeforeDelete tt e4 tt in
  let '(e6, r6, _) := CallAfterDelete tt e5 tt in
  [r1; r2; r3; r4; r5; r6] = [None; None; None; None; None; None] /\
  BeforeCreateCalled (state e6) && AfterCreateCalled (state e6) &&
  BeforeUpdateCalled (state e6) && AfterUpdateCalled (state e6) &&
  BeforeDeleteCalled (state e6) && AfterDeleteCalled (state e6) = true.
Proof. vm_compute. split; reflexivity. Qed.

(* ================================================================== *)
(** * Further properties of the code *)

(* ------------------------------------------------------------------ *)
(** ** Tag fragments in [parseField] *)

Lemma flag_set_IsPK (f : Flag) (fm : FieldMeta) :
  flag_get f fm = true -> flag_get f (set_IsPK fm) = true.
Proof. destruct f; simpl; auto. Qed.

(** Every case of the fragment switch keeps the flags already set. *)
Lemma parse_part_mono (f : Flag) (fm : FieldMeta) (part : string) :
  flag_get f fm = true -> flag_get f (parse_part fm part) = true.
Proof.
  intros H. unfold parse_part.
  repeat match goal with |- context [if ?c then _ else _] => destruct c end;
    destruct f; simpl in *; auto.
Qed.

Lemma parse_part_sets (f : Flag) (fm : FieldMeta) :
  flag_get f (parse_part fm (flag_name f)) = true.
Proof. destruct f; reflexivity. Qed.

Lemma fold_parts_mono (f : Flag) (parts : list string) (fm : FieldMeta) :
  flag_get f fm = true ->
  flag_get f (fold_left (fun fm part => parse_part fm (TrimSpace part)) parts fm) = true.
Proof.
  revert fm. induction parts as [|p parts IH]; intros fm H; simpl; [exact H|].
  apply IH. apply parse_part_mono. exact H.
Qed.

Lemma fold_parts_sets (f : Flag) (parts : list string) (fm : FieldMeta) :
  In (flag_name f) (map TrimSpace parts) ->
  flag_get f (fold_left (fun fm part => parse_part fm (TrimSpace part)) parts fm) = true.
Proof.
  revert fm. induction parts as [|p parts IH]; intros fm H; simpl in *; [contradiction|].
  destruct H as [H|H].
  - apply fold_parts_mono. rewrite H. apply parse_part_sets.
  - apply IH. exact H.
Qed.

(** A flag fragment anywhere in the [go-blar] tag sets its flag, whatever
    the other fragments and their order. *)
Theorem parseField_flag_fragment (sf : StructField) (f : Flag) :
  In (flag_name f) (fragments (Get (sfTag sf) "go-blar")) ->
  flag_get f (parseField sf) = true.
Proof.
  unfold fragments, parseField. intros H.
  destruct (String.eqb (Get (sfTag sf) "go-blar") "") eqn:He.
  - apply String.eqb_eq in He. rewrite He in H. simpl in H.
    destruct H as [H|[]]. destruct f; discriminate.
  - simpl. destruct (Contains _ "primaryKey").
    + apply flag_set_IsPK. apply fold_parts_sets. exact H.
    + apply fold_parts_sets. exact H.
Qed.

Lemma parseField_flag_fragment_witness :
  Hidden (parseField (Field "Code" "" [("go-blar", "readonly; hidden ;m2m:x")]
                        stringT [0])) = true.
Proof.
  apply (parseField_flag_fragment _ FHidden). vm_compute. right. left. reflexivity.
Defined.

(** A field whose [go-blar] tag is exactly one flag fragment and whose
    [gorm] tag does not mention [primaryKey] has exactly that flag set,
    and no relation. *)
Theorem parseField_single_flag (sf : StructField) (f : Flag) :
  Get (sfTag sf) "go-blar" = flag_name f ->
  Contains (Get (sfTag sf) "gorm") "primaryKey" = false ->
  (forall g, flag_get g (parseField sf) = flag_eqb f g) /\
  FK (parseField sf) = None /\ M2M (parseField sf) = None.
Proof.
  intros Hb Hg. unfold parseField. rewrite Hb, Hg.
  destruct f; split; [intros g; destruct g; reflexivity | split; reflexivity
                     |intros g; destruct g; reflexivity | split; reflexivity
                     |intros g; destruct g; reflexivity | split; reflexivity
                     |intros g; destruct g; reflexivity | split; reflexivity
                     |intros g; destruct g; reflexivity | split; reflexivity].
Qed.

Lemma parseField_single_flag_witness :
  List_ (parseField (Field "Items" "" [("go-blar", "list")] stringT [4])) = true /\
  Hidden (parseField (Field "Items" "" [("go-blar", "list")] stringT [4])) = false.
Proof.
  destruct (parseField_single_flag (Field "Items" "" [("go-blar", "list")] stringT [4])
              FList eq_refl eq_refl) as [Hf _].
  split; [apply (Hf FList) | apply (Hf FHidden)].
Defined.

Lemma list_ascii_append (a b : string) :
  list_ascii_of_string (String.append a b) = list_ascii_of_string a ++ list_ascii_of_string b.
Proof. induction a as [|c a IH]; simpl; [reflexivity | rewrite IH; reflexivity]. Qed.

Lemma plain_name_append (a b : string) :
  plain_name (String.append a b) = plain_name a && plain_name b.
Proof. unfold plain_name. rewrite list_ascii_append, forallb_app. reflexivity. Qed.

Lemma trim_left_plain (l : list ascii) :
  forallb (fun c => negb (is_space c) && negb (ascii_eqb c ";")) l = true -> trim_left l = l.
Proof.
  destruct l as [|c l]; simpl; [reflexivity|].
  destruct (is_space c); simpl; [discriminate | reflexivity].
Qed.

Lemma forallb_rev {A} (P : A -> bool) (l : list A) : forallb P (rev l) = forallb P l.
Proof.
  induction l as [|x l IH]; simpl; [reflexivity|].
  rewrite forallb_app, IH. simpl. rewrite andb_true_r, andb_comm. reflexivity.
Qed.

Lemma TrimSpace_plain (s : string) : plain_name s = true -> TrimSpace s = s.
Proof.
  unfold plain_name, TrimSpace. intros H.
  rewrite (trim_left_plain _ H).
  rewrite (trim_left_plain (rev _)) by (rewrite forallb_rev; exact H).
  rewrite rev_involutive. apply string_of_list_ascii_of_string.
Qed.

Lemma split_go_plain (l cur : list ascii) :
  forallb (fun c => negb (is_space c) && negb (ascii_eqb c ";")) l = true ->
  split_go ";" l cur = [string_of_list_ascii (rev cur ++ l)].
Proof.
  revert cur. induction l as [|c l IH]; intros cur H; simpl in *.
  - rewrite app_nil_r. reflexivity.
  - apply andb_prop in H as [Hc H]. apply andb_prop in Hc as [_ Hc].
    apply negb_true_iff in Hc. rewrite Hc, IH by exact H. simpl.
    rewrite <- app_assoc. reflexivity.
Qed.

Lemma Split_plain (s : string) : plain_name s = true -> Split s ";" = [s].
Proof.
  intros H. unfold Split. rewrite split_go_plain by exact H. simpl.
  rewrite string_of_list_ascii_of_string. reflexivity.
Qed.

Lemma length_append (a b : string) :
  String.length (String.append a b) = String.length a + String.length b.
Proof. induction a as [|c a IH]; simpl; [reflexivity | rewrite IH; reflexivity]. Qed.

Lemma substring_full (t : string) : substring 0 (String.length t) t = t.
Proof. induction t as [|c t IH]; simpl; [reflexivity | rewrite IH; reflexivity]. Qed.

Lemma substring_after (p t : string) (n : nat) :
  substring (String.length p) n (String.append p t) = substring 0 n t.
Proof. induction p as [|c p IH]; simpl; [reflexivity | exact IH]. Qed.

Lemma TrimPrefix_append (p t : string) : TrimPrefix (String.append p t) p = t.
Proof.
  unfold TrimPrefix. rewrite HasPrefix_app, length_append, substring_after.
  replace (String.length p + String.length t - String.length p) with (String.length t) by lia.
  apply substring_full.
Qed.

(** An [fk:<t>] (resp. [m2m:<t>]) tag, with [t] an ASCII name free of
    white space and [;], records the foreign key (resp. join table) [t]. *)
Theorem parseField_relation_fragment (sf : StructField) (tbl : string) :
  ascii_name tbl = true -> plain_name tbl = true ->
  (Get (sfTag sf) "go-blar" = String.append "fk:" tbl ->
   FK (parseField sf) = Some {| fk_TableName := tbl; fk_FieldName := "" |}) /\
  (Get (sfTag sf) "go-blar" = String.append "m2m:" tbl ->
   M2M (parseField sf) = Some {| m2m_TableName := tbl; m2m_FieldName := "" |}).
Proof.
  intros _ Ht. split; intros Hb.
  - assert (Hp : plain_name (String.append "fk:" tbl) = true)
      by (rewrite plain_name_append, Ht; reflexivity).
    unfold parseField. rewrite Hb, (Split_plain _ Hp). simpl fold_left.
    rewrite (TrimSpace_plain _ Hp).
    assert (Hpp : parse_part (bare_field sf) (String.append "fk:" tbl) =
                  set_FK (bare_field sf)
                    (Some {| fk_TableName := tbl; fk_FieldName := "" |})).
    { unfold parse_part. rewrite !HasPrefix_app, TrimPrefix_append.
      cbn -[HasPrefix TrimPrefix String.append]. reflexivity. }
    change {| fm_Name := sfName sf; fm_Type := sfType sf; fm_Index := sfIndex sf;
              IsPK := false; FK := None; Nested := false; M2M := None;
              List_ := false; Hidden := false; ReadOnly := false |} with (bare_field sf).
    rewrite Hpp. simpl. destruct (Contains _ _); reflexivity.
  - assert (Hp : plain_name (String.append "m2m:" tbl) = true)
      by (rewrite plain_name_append, Ht; reflexivity).
    unfold parseField. rewrite Hb, (Split_plain _ Hp). simpl fold_left.
    rewrite (TrimSpace_plain _ Hp).
    assert (Hpp : parse_part (bare_field sf) (String.append "m2m:" tbl) =
                  set_M2M (bare_field sf)
                    (Some {| m2m_TableName := tbl; m2m_FieldName := "" |})).
    { unfold parse_part. rewrite !HasPrefix_app, TrimPrefix_append.
      cbn -[HasPrefix TrimPrefix String.append]. reflexivity. }
    change {| fm_Name := sfName sf; fm_Type := sfType sf; fm_Index := sfIndex sf;
              IsPK := false; FK := None; Nested := false; M2M := None;
              List_ := false; Hidden := false; ReadOnly := false |} with (bare_field sf).
    rewrite Hpp. simpl. destruct (Contains _ _); reflexivity.
Qed.

Lemma parseField_relation_fragment_witness :
  ascii_name "users" = true /\ plain_name "users" = true /\
  FK (parseField (Field "UserID" "" [("go-blar", "fk:users")] uintT [3])) =
  Some {| fk_TableName := "users"; fk_FieldName := "" |}.
Proof.
  split; [reflexivity|]. split; [reflexivity|].
  apply (parseField_relation_fragment _ "users" eq_refl eq_refl). reflexivity.
Defined.

(* ------------------------------------------------------------------ *)
(** ** The registry: reset, aliasing, immutability *)

Lemma wf_init : wf_state init_state.
Proof. split; intros k p H; simpl in H; rewrite lookup_empty in H; discriminate. Qed.

Lemma wf_Parse (st : State) (v : option Type_) : wf_state st -> wf_state (fst (Parse st v)).
Proof.
  intros [Hr Hh]. destruct v as [t0|]; simpl; [|split; assumption].
  destruct (registry st !! String_ (deref t0)); simpl; [split; assumption|].
  destruct (deref t0) as [n str fields| |]; simpl; try (split; assumption).
  split.
  - intros k p H. simpl in H. destruct (decide (k = str)) as [->|Hne].
    + rewrite lookup_insert_eq in H. injection H as <-. simpl. lia.
    + rewrite lookup_insert_ne in H by congruence. specialize (Hr _ _ H). simpl. lia.
  - intros q m H. simpl in H |- *. destruct (decide (q = next_ptr st)) as [->|Hne].
    + lia.
    + rewrite lookup_insert_ne in H by congruence. specialize (Hh _ _ H). lia.
Qed.

Lemma wf_Clear (st : State) : wf_state st -> wf_state (ClearRegistry st).
Proof.
  intros [_ Hh]. split; simpl; [|exact Hh].
  intros k p H. simpl in H. rewrite lookup_empty in H. discriminate.
Qed.

(** [Parse] never changes a descriptor already on the heap. *)
Theorem Parse_keeps_descriptors (st : State) (v : option Type_) (q : ptr) (m : EntityMeta) :
  wf_state st -> heap st !! q = Some m -> heap (fst (Parse st v)) !! q = Some m.
Proof.
  intros [_ Hh] Hq. destruct v as [t0|]; simpl; [|exact Hq].
  destruct (registry st !! String_ (deref t0)); simpl; [exact Hq|].
  destruct (deref t0); simpl; try exact Hq.
  rewrite lookup_insert_ne; [exact Hq|]. specialize (Hh _ _ Hq). intros Heq. subst q. lia.
Qed.

Lemma Parse_keeps_descriptors_witness :
  heap (fst (Parse (fst (Parse init_state (Some (RPtr User)))) (Some (RPtr Product))))
    !! 1%positive = parsed_meta init_state (Some (RPtr User)).
Proof.
  apply (Parse_keeps_descriptors (fst (Parse init_state (Some (RPtr User))))
           (Some (RPtr Product)) 1%positive _ (wf_Parse _ _ wf_init)).
  vm_compute. reflexivity.
Defined.

(** After [ClearRegistry], parsing a struct again yields a new descriptor
    at a fresh address, not the one cached before the reset. *)
Theorem Parse_after_Clear_fresh (st st1 : State) (t0 : Type_) (p : ptr)
    (err : option string) (n str : string) (fields : list StructField) :
  wf_state st ->
  Parse st (Some t0) = (st1, Returned (Some p) err) ->
  deref t0 = RStruct n str fields ->
  exists q, snd (Parse (ClearRegistry st1) (Some t0)) = Returned (Some q) None /\ q <> p.
Proof.
  intros Hwf H Ht.
  assert (Hwf1 : wf_state st1) by (pose proof (wf_Parse st (Some t0) Hwf) as W; rewrite H in W; exact W).
  destruct (Parse_registers _ _ _ _ _ H) as [t0' [Heq Hk]]. injection Heq as <-.
  exists (next_ptr st1). split.
  - simpl. rewrite lookup_empty, Ht. reflexivity.
  - destruct Hwf1 as [Hr _]. specialize (Hr _ _ Hk). intros Hq. rewrite Hq in Hr. lia.
Qed.

Lemma Parse_after_Clear_fresh_witness :
  let st1 := fst (Parse init_state (Some (RPtr User))) in
  snd (Parse (ClearRegistry st1) (Some (RPtr User))) = Returned (Some 2%positive) None.
Proof.
  destruct (Parse_after_Clear_fresh init_state (fst (Parse init_state (Some (RPtr User))))
              (RPtr User) 1%positive None "User" "main.User" _ wf_init eq_refl eq_refl)
    as (q & Hq & _).
  simpl in *. rewrite Hq. f_equal. f_equal. vm_compute in Hq. congruence.
Defined.

(** The cache is keyed by the type's string: a different type printing
    the same way gets the descriptor of the type parsed first. *)
Theorem Parse_shared_by_type_string (st st1 : State) (t0 t1 : Type_) (p : ptr)
    (err : option string) :
  Parse st (Some t0) = (st1, Returned (Some p) err) ->
  key_of t1 = key_of t0 ->
  Parse st1 (Some t1) = (st1, Returned (Some p) None).
Proof.
  intros H Hk. destruct (Parse_registers _ _ _ _ _ H) as [t0' [Heq Hr]].
  injection Heq as <-. apply Parse_hit. rewrite Hk. exact Hr.
Qed.

Lemma Parse_shared_by_type_string_witness :
  let st1 := fst (Parse init_state (Some (RPtr ProductBasic))) in
  Parse st1 (Some (RPtr ProductTags)) = (st1, Returned (Some 1%positive) None) /\
  option_map em_Type (heap st1 !! 1%positive) = Some ProductBasic.
Proof.
  split.
  - apply (Parse_shared_by_type_string init_state _ (RPtr ProductBasic) (RPtr ProductTags)
             1%positive None); reflexivity.
  - reflexivity.
Defined.

(* ------------------------------------------------------------------ *)
(** ** The descriptor [Parse] builds: type, name and field lookup *)

Lemma parse_part_ident (fm : FieldMeta) (part : string) :
  fm_Name (parse_part fm part) = fm_Name fm /\
  fm_Type (parse_part fm part) = fm_Type fm /\
  fm_Index (parse_part fm part) = fm_Index fm.
Proof.
  unfold parse_part.
  repeat match goal with
         | |- context [if ?b then _ else _] => destruct b
         end; repeat split; reflexivity.
Qed.

Lemma fold_parts_ident (parts : list string) (fm : FieldMeta) :
  let fm' := fold_left (fun fm part => parse_part fm (TrimSpace part)) parts fm in
  fm_Name fm' = fm_Name fm /\ fm_Type fm' = fm_Type fm /\ fm_Index fm' = fm_Index fm.
Proof.
  revert fm. induction parts as [|part parts IH]; intros fm; simpl; [repeat split|].
  destruct (IH (parse_part fm (TrimSpace part))) as (H1 & H2 & H3).
  destruct (parse_part_ident fm (TrimSpace part)) as (G1 & G2 & G3).
  repeat split; congruence.
Qed.

(** A [FieldMeta] keeps the Go field's name, type and index path. *)
Lemma parseField_ident (sf : StructField) :
  fm_Name (parseField sf) = sfName sf /\ fm_Type (parseField sf) = sfType sf /\
  fm_Index (parseField sf) = sfIndex sf.
Proof.
  unfold parseField.
  destruct (negb (String.eqb (Get (sfTag sf) "go-blar") "")).
  - destruct (fold_parts_ident (Split (Get (sfTag sf) "go-blar") ";")
      {| fm_Name := sfName sf; fm_Type := sfType sf; fm_Index := sfIndex sf;
         IsPK := false; FK := None; Nested := false; M2M := None;
         List_ := false; Hidden := false; ReadOnly := false |}) as (H1 & H2 & H3).
    destruct (Contains (Get (sfTag sf) "gorm") "primaryKey"); simpl in *; repeat split; assumption.
  - destruct (Contains (Get (sfTag sf) "gorm") "primaryKey"); repeat split; reflexivity.
Qed.

Lemma parse_step_ident (fs : list StructField) (m : EntityMeta) :
  em_Type (fold_left parse_step fs m) = em_Type m /\
  em_Name (fold_left parse_step fs m) = em_Name m.
Proof.
  revert m. induction fs as [|sf fs IH]; intros m; simpl; [split; reflexivity|].
  destruct (IH (parse_step m sf)) as [H1 H2]. rewrite H1, H2. unfold parse_step.
  destruct (negb (String.eqb (sfPkgPath sf) "")); split; reflexivity.
Qed.

Lemma parse_miss_struct_ident (st : State) (t0 : Type_) (n str : string)
    (fields : list StructField) :
  registry st !! key_of t0 = None ->
  deref t0 = RStruct n str fields ->
  exists m0,
    parsed_meta st (Some t0) = Some (fold_left parse_step fields m0) /\
    em_Type m0 = RStruct n str fields /\ em_Name m0 = n /\ Fields m0 = [].
Proof.
  unfold key_of, parsed_meta. intros Hk Ht. simpl. rewrite Ht in *. simpl in *.
  rewrite Hk. simpl.
  destruct (field_by_name fields "gorm") as [g|]; simpl.
  - destruct (String.eqb (parseGormTag (Get (sfTag g) "gorm")) "") eqn:He; simpl;
      eexists; rewrite lookup_insert_eq; (split; [reflexivity|]); repeat split.
  - eexists. rewrite lookup_insert_eq. split; [reflexivity|]. repeat split.
Qed.

Lemma find_field_map (fs : list StructField) (name : string) :
  find_field (map parseField (List.filter exported fs)) name =
  option_map parseField
    (List.find (fun sf => exported sf && String.eqb (sfName sf) name) fs).
Proof.
  induction fs as [|sf fs IH]; simpl; [reflexivity|].
  destruct (exported sf); simpl; [|exact IH].
  destruct (parseField_ident sf) as [Hn _]. rewrite Hn.
  destruct (String.eqb (sfName sf) name); [reflexivity | exact IH].
Qed.

(** On a cache miss for a struct [T] (given directly or as [*T]), the
    descriptor records the struct type itself, its bare name, and
    [GetFieldByName] finds the first exported field of that name, parsed. *)
Theorem Parse_descriptor_lookup (st : State) (t0 : Type_) (n str : string)
    (fields : list StructField) :
  registry st !! key_of t0 = None ->
  deref t0 = RStruct n str fields ->
  exists m, parsed_meta st (Some t0) = Some m /\
    em_Type m = RStruct n str fields /\ em_Name m = n /\
    forall name, GetFieldByName m name =
      option_map parseField
        (List.find (fun sf => exported sf && String.eqb (sfName sf) name) fields).
Proof.
  intros Hk Ht.
  destruct (parse_miss_struct_ident st t0 n str fields Hk Ht) as (m0 & Hm & HT & HN & HF).
  exists (fold_left parse_step fields m0). split; [exact Hm|].
  destruct (parse_step_ident fields m0) as [H1 H2].
  rewrite H1, H2. split; [exact HT|]. split; [exact HN|].
  intros name. unfold GetFieldByName. rewrite parse_step_Fields, HF. simpl.
  apply find_field_map.
Qed.

Lemma Parse_descriptor_lookup_witness :
  exists m, parsed_meta init_state (Some (RPtr User)) = Some m /\
    em_Type m = User /\ em_Name m = "User" /\
    option_map fm_Name (GetFieldByName m "Email") = Some "Email".
Proof.
  destruct (Parse_descriptor_lookup init_state (RPtr User) "User" "main.User" _
              eq_refl eq_refl) as (m & Hm & HT & HN & HG).
  exists m. split; [exact Hm|]. split; [exact HT|]. split; [exact HN|].
  rewrite HG. vm_compute. reflexivity.
Defined.

(* ------------------------------------------------------------------ *)
(** ** [toSnakeCase]: lower-case output, identity on lower-case input *)

Definition no_upper (s : string) : bool :=
  forallb (fun c => negb (is_upper c)) (list_ascii_of_string s).

Lemma lower_rune_not_upper (c : ascii) : is_upper (lower_rune c) = false.
Proof.
  unfold lower_rune. destruct (is_upper c) eqn:Hu; [|exact Hu].
  unfold is_upper, code in *. apply andb_true_iff in Hu as [H1 H2].
  apply Nat.leb_le in H1, H2.
  rewrite Ascii.nat_ascii_embedding by lia.
  apply andb_false_iff. right. apply Nat.leb_gt. lia.
Qed.

Lemma lower_rune_id (c : ascii) : is_upper c = false -> lower_rune c = c.
Proof. unfold lower_rune. intros ->. reflexivity. Qed.

Lemma ToLower_no_upper (s : string) : no_upper (ToLower s) = true.
Proof.
  unfold no_upper, ToLower. rewrite list_ascii_of_string_of_list_ascii.
  induction (list_ascii_of_string s) as [|c l IH]; simpl; [reflexivity|].
  rewrite lower_rune_not_upper, IH. reflexivity.
Qed.

Lemma ToLower_id (s : string) : no_upper s = true -> ToLower s = s.
Proof.
  unfold no_upper, ToLower. intros H.
  rewrite <- (string_of_list_ascii_of_string s) at 2. f_equal.
  induction (list_ascii_of_string s) as [|c l IH]; simpl in *; [reflexivity|].
  apply andb_true_iff in H as [Hc Hl]. apply negb_true_iff in Hc.
  rewrite lower_rune_id by exact Hc. rewrite IH by exact Hl. reflexivity.
Qed.

Lemma loop_no_upper (runes rest result : list ascii) (i : nat) :
  forallb (fun c => negb (is_upper c)) rest = true ->
  loop runes i rest result = result ++ rest.
Proof.
  revert i result. induction rest as [|r rest IH]; intros i result H; simpl in *.
  - rewrite app_nil_r. reflexivity.
  - apply andb_true_iff in H as [Hr Hl]. apply negb_true_iff in Hr.
    destruct (Nat.eqb i 0); [|destruct (ascii_eqb r "_"); [|rewrite Hr]];
      rewrite IH by exact Hl; rewrite <- app_assoc; reflexivity.
Qed.

(** [toSnakeCase] never outputs an upper-case ASCII letter. *)
Theorem toSnakeCase_lower (s : string) : no_upper (toSnakeCase s) = true.
Proof. unfold toSnakeCase. apply ToLower_no_upper. Qed.

(** An ASCII name without upper-case letters is returned unchanged. *)
Theorem toSnakeCase_fixed (s : string) :
  ascii_name s = true -> no_upper s = true -> toSnakeCase s = s.
Proof.
  intros _ H. unfold toSnakeCase.
  rewrite loop_no_upper by exact H. simpl.
  rewrite string_of_list_ascii_of_string. apply ToLower_id. exact H.
Qed.

Lemma toSnakeCase_fixed_witness :
  ascii_name "order_item" = true /\ no_upper "order_item" = true /\ toSnakeCase "order_item" = "order_item".
Proof.
  split; [reflexivity|]. split; [reflexivity|].
  exact (toSnakeCase_fixed "order_item" eq_refl eq_refl).
Defined.

(** [toSnakeCase] is idempotent: snake-casing its output again changes nothing. *)
Theorem toSnakeCase_idempotent (s : string) :
  toSnakeCase (toSnakeCase s) = toSnakeCase s.
Proof.
  unfold toSnakeCase at 1.
  rewrite loop_no_upper by apply toSnakeCase_lower. simpl.
  rewrite string_of_list_ascii_of_string. apply ToLower_id. apply toSnakeCase_lower.
Qed.

(* ------------------------------------------------------------------ *)
(** ** [goblar]: options, [Register], [Start] and [Run] *)

Import Goblar.

Section GoblarProps.

Context {DBH W Handler : Type}.

Lemma apply_denote (os : list (OptSyn DBH Handler)) (c : config DBH Handler) :
  apply c (map denote os) =
  {| cfg_db := last_db os (cfg_db c); cfg_addr := last_addr os (cfg_addr c);
     cfg_middleware := cfg_middleware c ++ mws_of os |}.
Proof.
  unfold apply. revert c. induction os as [|o os IH]; intros c; simpl.
  - destruct c; simpl. rewrite app_nil_r. reflexivity.
  - rewrite IH. destruct o; simpl; try reflexivity.
    rewrite <- app_assoc. reflexivity.
Qed.

Lemma register_loop_frame (AM : DBH -> W -> option Type_ -> W * option string)
    (d : DBH) (st : State) (w : W) (a : App DBH Handler) (ms : list (option Type_)) :
  app_db (snd (fst (register_loop AM d st w a ms))) = app_db a /\
  app_router (snd (fst (register_loop AM d st w a ms))) = app_router a /\
  app_cfg (snd (fst (register_loop AM d st w a ms))) = app_cfg a.
Proof.
  revert st w a. induction ms as [|m ms IH]; intros st w a; simpl; [repeat split|].
  destruct (Parse st m) as [st1 [[p|] [e|]|msg]]; simpl; try (repeat split; fail).
  - destruct (AM d w m) as [w1 [e|]]; simpl; [repeat split|].
    destruct (heap st1 !! p); simpl; [|repeat split].
    exact (IH _ _ _).
  - destruct (AM d w m) as [w1 [e|]]; simpl; repeat split.
Qed.

Lemma Register_frame (AM : DBH -> W -> option Type_ -> W * option string)
    (st : State) (w : W) (a : App DBH Handler) (ms : list (option Type_)) :
  app_db (snd (fst (Register AM st w a ms))) = app_db a /\
  app_router (snd (fst (Register AM st w a ms))) = app_router a /\
  app_cfg (snd (fst (Register AM st w a ms))) = app_cfg a.
Proof.
  unfold Register. destruct (app_db a) as [d|] eqn:Hd; [|simpl; rewrite Hd; repeat split; reflexivity].
  destruct (register_loop_frame AM d st w a ms) as (H1 & H2 & H3).
  rewrite Hd in H1. repeat split; assumption.
Qed.

(** Options apply in order: the last [WithDB] and the last [WithAddress]
    win, middlewares accumulate in the order given, [":8080"] is the
    default address; [Register] changes none of this (the app it returns
    keeps the database handle of the last [WithDB] and the middlewares), and the server
    [Start] builds uses the configured address ([":8080"] when it is
    empty) and a nil handler, since the app's router is never set. *)
Theorem New_Register_Start (AM : DBH -> W -> option Type_ -> W * option string)
    (os : list (OptSyn DBH Handler)) (st : State) (w : W) (ms : list (option Type_)) :
  let a := New (map denote os) in
  let a' := snd (fst (Register AM st w a ms)) in
  app_db a = last_db os None /\
  app_db a' = last_db os None /\
  cfg_middleware (app_cfg a') = mws_of os /\
  snd (Start a') =
    {| srv_Addr := (let addr := last_addr os ":8080" in
                    if String.eqb addr "" then ":8080" else addr);
       srv_Handler := None |}.
Proof.
  cbv zeta.
  assert (Hn : app_db (New (map denote os)) = last_db os None /\
               app_router (New (map denote os)) = None /\
               app_cfg (New (map denote os)) =
               {| cfg_db := last_db os None; cfg_addr := last_addr os ":8080";
                  cfg_middleware := mws_of os |})
    by (unfold New; rewrite apply_denote; repeat split).
  destruct Hn as (Hd & Hr0 & Hc0).
  destruct (Register_frame AM st w (New (map denote os)) ms) as (Hd' & Hr & Hc).
  rewrite Hr0 in Hr. rewrite Hc0 in Hc. rewrite Hd in Hd'.
  split; [exact Hd|]. split; [exact Hd'|]. rewrite Hc. split; [reflexivity|].
  unfold Start. rewrite Hc. simpl.
  destruct (String.eqb (last_addr os ":8080") "") eqn:He; simpl; rewrite Hr; [reflexivity|].
  rewrite Hc. reflexivity.
Qed.

(** [Run] builds its app with no option, so the database is nil:
    whatever the models, it returns the configuration error without
    parsing or migrating anything and never starts a server. *)
Theorem Run_without_db (AM : DBH -> W -> option Type_ -> W * option string)
    (st : State) (w : W) (ms : list (option Type_)) :
  @Run DBH W Handler AM st w ms = (st, w, RunErr "database not configured: use WithDB option").
Proof. reflexivity. Qed.

Lemma register_loop_app (AM : DBH -> W -> option Type_ -> W * option string)
    (d : DBH) (st : State) (w : W) (a : App DBH Handler) (ms1 ms2 : list (option Type_)) :
  register_loop AM d st w a (ms1 ++ ms2) =
  match register_loop AM d st w a ms1 with
  | (st1, w1, a1, RNil) => register_loop AM d st1 w1 a1 ms2
  | r => r
  end.
Proof.
  revert st w a. induction ms1 as [|m ms1 IH]; intros st w a; simpl; [reflexivity|].
  destruct (Parse st m) as [st1 [[p|] [e|]|msg]]; try reflexivity.
  - destruct (AM d w m) as [w1 [e|]]; [reflexivity|].
    destruct (heap st1 !! p); [apply IH | reflexivity].
  - destruct (AM d w m) as [w1 [e|]]; reflexivity.
Qed.

Lemma register_loop_mono (AM : DBH -> W -> option Type_ -> W * option string)
    (d : DBH) (st st' : State) (w w' : W) (a a' : App DBH Handler)
    (ms : list (option Type_)) (r : Result) :
  wf_state st ->
  register_loop AM d st w a ms = (st', w', a', r) ->
  wf_state st' /\
  (forall k p, registry st !! k = Some p -> registry st' !! k = Some p) /\
  (forall q m, heap st !! q = Some m -> heap st' !! q = Some m) /\
  (forall k, is_Some (app_registry a !! k) -> is_Some (app_registry a' !! k)).
Proof.
  revert st w a. induction ms as [|m ms IH]; intros st w a Hwf H; simpl in H.
  - injection H as <- <- <- <-. split; [assumption|repeat split; auto].
  - pose proof (wf_Parse st m Hwf) as Hwf1.
    pose proof (fun k p => Parse_keeps st m k p) as Hk1.
    pose proof (fun q e => Parse_keeps_descriptors st m q e Hwf) as Hh1.
    destruct (Parse st m) as [st1 [[p|] [e|]|msg]] eqn:HP; simpl in *.
    + injection H as <- <- <- <-. split; [assumption|repeat split; auto].
    + destruct (AM d w m) as [w1 [e|]].
      * injection H as <- <- <- <-. split; [assumption|repeat split; auto].
      * destruct (heap st1 !! p) as [em|] eqn:He.
        -- destruct (IH _ _ _ Hwf1 H) as (W1 & K1 & H1 & A1).
           split; [assumption|repeat split; auto].
           intros k Hs. apply A1. simpl.
           destruct (decide (k = em_Name em)) as [->|Hne].
           ++ rewrite lookup_insert_eq. eexists; reflexivity.
           ++ rewrite lookup_insert_ne by congruence. exact Hs.
        -- injection H as <- <- <- <-. split; [assumption|repeat split; auto].
    + injection H as <- <- <- <-. split; [assumption|repeat split; auto].
    + destruct (AM d w m) as [w1 [e|]]; injection H as <- <- <- <-;
        (split; [assumption|repeat split; auto]).
    + injection H as <- <- <- <-. split; [assumption|repeat split; auto].
Qed.

(** A successful [Register] leaves each model cached by package [meta]
    and the name of its descriptor a key of the app's registry. *)
Theorem Register_success (AM : DBH -> W -> option Type_ -> W * option string)
    (st st' : State) (w w' : W) (a a' : App DBH Handler) (ms : list (option Type_)) :
  wf_state st ->
  Register AM st w a ms = (st', w', a', RNil) ->
  forall m, In m ms ->
  exists t p em, m = Some t /\ registry st' !! key_of t = Some p /\
    heap st' !! p = Some em /\ is_Some (app_registry a' !! em_Name em).
Proof.
  unfold Register. destruct (app_db a) as [d|]; [|discriminate].
  revert st w a. induction ms as [|m0 ms IH]; intros st w a Hwf H m Hin; [destruct Hin|].
  simpl in H.
  pose proof (wf_Parse st m0 Hwf) as Hwf1.
  destruct (Parse st m0) as [st1 [[p|] [e|]|msg]] eqn:HP; try discriminate.
  - destruct (AM d w m0) as [w1 [e|]]; [discriminate|].
    destruct (heap st1 !! p) as [em|] eqn:He; [|discriminate].
    simpl in Hwf1.
    destruct Hin as [<-|Hin]; [|exact (IH _ _ _ Hwf1 H m Hin)].
    destruct (Parse_registers _ _ _ _ _ HP) as (t & -> & Hr).
    destruct (register_loop_mono AM d _ _ _ _ _ _ _ _ Hwf1 H) as (_ & K & Hh & A).
    exists t, p, em. split; [reflexivity|]. split; [exact (K _ _ Hr)|].
    split; [exact (Hh _ _ He)|]. apply A. simpl. rewrite lookup_insert_eq. eexists; reflexivity.
  - destruct (AM d w m0) as [w1 [e|]]; discriminate.
Qed.

(** When [AutoMigrate] fails on a model, [Register] returns the wrapped
    error; the models before it stay in the app's registry, the failing
    one is not added to it, yet package [meta] has already cached it. *)
Theorem Register_migrate_failure (AM : DBH -> W -> option Type_ -> W * option string)
    (d : DBH) (st st1 st2 : State) (w w1 w2 : W) (a a1 : App DBH Handler)
    (ms1 ms2 : list (option Type_)) (t : Type_) (p : ptr) (err : string) :
  app_db a = Some d ->
  register_loop AM d st w a ms1 = (st1, w1, a1, RNil) ->
  Parse st1 (Some t) = (st2, Returned (Some p) None) ->
  AM d w1 (Some t) = (w2, Some err) ->
  Register AM st w a (ms1 ++ Some t :: ms2) =
    (st2, w2, a1,
     RErr (String.append "failed to migrate model "
             (String.append (String_ t) (String.append ": " err)))) /\
  registry st2 !! key_of t = Some p.
Proof.
  intros Hd H1 HP HM. split.
  - unfold Register. rewrite Hd, register_loop_app, H1. cbn [register_loop]. rewrite HP, HM. reflexivity.
  - destruct (Parse_registers _ _ _ _ _ HP) as (t' & Ht & Hr). injection Ht as <-. exact Hr.
Qed.

End GoblarProps.

Lemma New_Register_Start_witness :
  let a := @New unit unit [denote (OAddr ""); denote (ODB (Some tt))] in
  snd (Start (snd (fst (Register migrate_ok init_state tt a [Some (RPtr User)])))) =
    {| srv_Addr := ":8080"; srv_Handler := None |}.
Proof.
  exact (proj2 (proj2 (proj2 (New_Register_Start migrate_ok [OAddr ""; ODB (Some tt)]
                          init_state tt [Some (RPtr User)])))).
Defined.

Lemma Register_success_witness :
  snd register_two = RNil /\
  exists t p em, Some (RPtr User) = Some t /\
    registry (fst (fst (fst register_two))) !! key_of t = Some p /\
    heap (fst (fst (fst register_two))) !! p = Some em /\
    is_Some (app_registry (snd (fst register_two)) !! em_Name em).
Proof.
  split; [reflexivity|].
  exact (Register_success migrate_ok init_state (fst (fst (fst register_two))) tt
           (snd (fst (fst register_two))) (@New unit unit [denote (ODB (Some tt))])
           (snd (fst register_two)) [Some (RPtr User); Some (RPtr Product)] wf_init eq_refl
           (Some (RPtr User)) (or_introl eq_refl)).
Defined.

Lemma Register_migrate_failure_witness :
  Register migrate_fail_product init_state tt (@New unit unit [denote (ODB (Some tt))])
    [Some (RPtr User); Some (RPtr Product); Some (RPtr Order)] =
    (fst (Parse (fst (Parse init_state (Some (RPtr User)))) (Some (RPtr Product))), tt,
     set_registry (@New unit unit [denote (ODB (Some tt))]) (<["User" := 1%positive]> ∅),
     RErr "failed to migrate model *main.Product: no such table").
Proof.
  exact (proj1 (Register_migrate_failure migrate_fail_product tt init_state _ _ tt tt tt
                  (@New unit unit [denote (ODB (Some tt))]) _
                  [Some (RPtr User)] [Some (RPtr Order)] (RPtr Product) 2%positive
                  "no such table" eq_refl eq_refl eq_refl eq_refl)).
Defined.

(* ------------------------------------------------------------------ *)
(** ** Middlewares: order, repetition, and the route barrier *)

Section MiddlewareProps.

Context {Handler : Type}.

Lemma firstn_S_nth {A : Type} (l : list A) (i : nat) (d : A) :
  i < List.length l -> firstn (S i) l = firstn i l ++ [nth i l d].
Proof.
  revert i. induction l as [|x l IH]; intros i Hi; simpl in Hi; [lia|].
  destruct i as [|i]; [reflexivity|].
  change (firstn (S (S i)) (x :: l)) with (x :: firstn (S i) l).
  rewrite (IH i) by lia. reflexivity.
Qed.

Lemma apply_loop_fresh (ms : list (Handler -> Handler)) (i : nat) (mws : list (Handler -> Handler)) :
  i <= List.length ms ->
  Middleware.apply_loop ms i {| Middleware.mux_middlewares := mws; Middleware.mux_routes := [] |} =
  inl {| Middleware.mux_middlewares := mws ++ rev (firstn i ms); Middleware.mux_routes := [] |}.
Proof.
  revert mws. induction i as [|i IH]; intros mws Hi; simpl.
  - rewrite app_nil_r. reflexivity.
  - unfold Middleware.Use. simpl. rewrite IH by lia.
    rewrite (firstn_S_nth ms i (fun h => h)) by lia. rewrite rev_app_distr.
    simpl. rewrite <- app_assoc. reflexivity.
Qed.

Lemma AddMiddleware_fold (ms : list (Handler -> Handler)) (r : Middleware.Router Handler) :
  fold_left Middleware.AddMiddleware ms r =
  {| Middleware.mux := Middleware.mux r; Middleware.middlewares := Middleware.middlewares r ++ ms |}.
Proof.
  revert r. induction ms as [|m ms IH]; intros r; simpl.
  - destruct r; simpl. rewrite app_nil_r. reflexivity.
  - rewrite IH. simpl. rewrite <- app_assoc. reflexivity.
Qed.

Lemma chain_rev (ms : list (Handler -> Handler)) (h : Handler) :
  Middleware.chain (rev ms) h = fold_left (fun h m => m h) ms h.
Proof. unfold Middleware.chain. apply fold_left_rev_right. Qed.

(** Middlewares added to a fresh router and applied wrap the routes so
    that the first added runs innermost and the last added outermost;
    the list is kept, so a second [ApplyMiddleware] wraps everything in
    a second copy of the same chain. *)
Theorem ApplyMiddleware_order (ms : list (Handler -> Handler)) (h : Handler) :
  let r := fold_left Middleware.AddMiddleware ms Middleware.New in
  exists r', Middleware.ApplyMiddleware r = inl r' /\
    Middleware.chain (Middleware.mux_middlewares (Middleware.mux r')) h =
      fold_left (fun h m => m h) ms h /\
    exists r'', Middleware.ApplyMiddleware r' = inl r'' /\
      Middleware.chain (Middleware.mux_middlewares (Middleware.mux r'')) h =
        fold_left (fun h m => m h) ms (fold_left (fun h m => m h) ms h).
Proof.
  cbv zeta. rewrite AddMiddleware_fold. unfold Middleware.ApplyMiddleware. simpl.
  rewrite (apply_loop_fresh ms (List.length ms) []) by lia.
  rewrite firstn_all. simpl.
  eexists. split; [reflexivity|]. split; [apply chain_rev|].
  cbn [Middleware.middlewares Middleware.mux].
  rewrite (apply_loop_fresh ms (List.length ms) (rev ms)) by lia.
  rewrite firstn_all. eexists. split; [reflexivity|]. simpl.
  unfold Middleware.chain. rewrite fold_right_app.
  rewrite !fold_left_rev_right. reflexivity.
Qed.

Lemma RegisterEntityRoutes_nonempty (rt : Routes.Router) (meta : EntityMeta) :
  exists x l, Routes.RegisterEntityRoutes rt meta = x :: l.
Proof. unfold Routes.RegisterEntityRoutes, Routes.handle. destruct rt; simpl; eauto. Qed.

(** Once [RegisterEntityRoutes] has added the entity routes,
    [ApplyMiddleware] panics as soon as there is a middleware to apply. *)
Theorem ApplyMiddleware_after_routes (r : Middleware.Router Handler) (meta : EntityMeta) :
  Middleware.middlewares r <> [] ->
  Middleware.ApplyMiddleware (Middleware.RegisterEntityRoutes r meta) = inr Middleware.use_panic.
Proof.
  intros Hne. unfold Middleware.ApplyMiddleware, Middleware.RegisterEntityRoutes. simpl.
  destruct (Middleware.middlewares r) as [|m ms] eqn:Hm; [congruence|].
  simpl. unfold Middleware.Use. simpl.
  destruct (RegisterEntityRoutes_nonempty (Middleware.mux_routes (Middleware.mux r)) meta)
    as (x & l & ->).
  reflexivity.
Qed.

End MiddlewareProps.

Lemma ApplyMiddleware_after_routes_witness :
  Middleware.AddMiddleware (@Middleware.New nat) S <> Middleware.New /\
  Middleware.ApplyMiddleware
    (Middleware.RegisterEntityRoutes (Middleware.AddMiddleware Middleware.New S) user_meta) =
    inr Middleware.use_panic.
Proof.
  split; [discriminate|].
  apply ApplyMiddleware_after_routes. simpl. discriminate.
Defined.

(* ------------------------------------------------------------------ *)
(** ** The CRUD handlers: what each failure prevents *)

Section HandlerProps.

Context {S Ctx Tx W Body : Type}.
Context (db : Tx).
Context (mk : EntityMeta -> Hooks.Entity S Ctx Tx string).
Context (Decode : Body -> Hooks.Entity S Ctx Tx string -> Hooks.Entity S Ctx Tx string * option string).
Context (db_Create : Ctx -> W -> Hooks.Entity S Ctx Tx string ->
                     W * Hooks.Entity S Ctx Tx string * option Repo.DBError).
Context (db_First : Ctx -> W -> Hooks.Entity S Ctx Tx string -> Z ->
                    Hooks.Entity S Ctx Tx string * option Repo.DBError).
Context (db_Updates db_Delete : Ctx -> W -> Hooks.Entity S Ctx Tx string -> Z ->
                                W * option Repo.DBError).
Context (Error : Repo.DBError -> string).

Lemma call_if_trace (k : Hooks.Hook) (ctx : Ctx) (e e' : Hooks.Entity S Ctx Tx string)
    (err : option string) (hs : list Hooks.Hook) :
  Hooks.call_if k ctx e db = (e', err, hs) -> hs = [] \/ hs = [k].
Proof.
  unfold Hooks.call_if. destruct (Hooks.methods e k) as [h|].
  - destruct (h ctx db (Hooks.state e)). intros H. injection H as _ _ <-. right; reflexivity.
  - intros H. injection H as _ _ <-. left; reflexivity.
Qed.

(** A malformed id ([strconv.ParseInt] fails) gives [400 Invalid ID] from
    the get, update and delete handlers, before any query, decoding or
    hook, and the database is left as it was. *)
Theorem handlers_invalid_id (meta : EntityMeta) (ctx : Ctx) (idStr : string)
    (body : Body) (w : W) :
  Handlers.ParseInt idStr = None ->
  Handlers.GetHandler mk db_First Error meta ctx idStr w = (w, Handlers.HttpError "Invalid ID" 400, []) /\
  Handlers.UpdateHandler db mk Decode db_Updates Error meta ctx idStr body w =
    (w, Handlers.HttpError "Invalid ID" 400, []) /\
  Handlers.DeleteHandler db mk db_First db_Delete Error meta ctx idStr w =
    (w, Handlers.HttpError "Invalid ID" 400, []).
Proof.
  intros H. unfold Handlers.GetHandler, Handlers.UpdateHandler, Handlers.DeleteHandler.
  rewrite H. repeat split.
Qed.



(** A [201] from the create handler comes after exactly one insert,
    preceded by at most one hook call, [BeforeCreate], and followed by at
    most one, [AfterCreate]. *)
Theorem CreateHandler_created (meta : EntityMeta) (ctx : Ctx) (body : Body) (w w' : W)
    (code : nat) (e : Hooks.Entity S Ctx Tx string) (tr : list Handlers.Event) :
  Handlers.CreateHandler db mk Decode db_Create Error meta ctx body w = (w', Handlers.JSON code e, tr) ->
  code = 201 /\
  exists hs1 hs2, tr = Handlers.hook_events hs1 ++ Handlers.ECreate :: Handlers.hook_events hs2 /\
    (hs1 = [] \/ hs1 = [Hooks.BeforeCreate]) /\ (hs2 = [] \/ hs2 = [Hooks.AfterCreate]).
Proof.
  unfold Handlers.CreateHandler.
  destruct (Decode body (mk meta)) as [e1 [d|]]; [discriminate|].
  destruct (Hooks.CallBeforeCreate ctx e1 db) as [[e2 [err|]] hs] eqn:HB; [discriminate|].
  destruct (db_Create ctx w e2) as [[w1 e3] [err|]]; [discriminate|].
  destruct (Hooks.CallAfterCreate ctx e3 db) as [[e4 [err|]] hs2] eqn:HA; [discriminate|].
  intros H. injection H as _ <- _ <-. split; [reflexivity|].
  exists hs, hs2. split; [reflexivity|].
  split; [exact (call_if_trace _ _ _ _ _ _ HB) | exact (call_if_trace _ _ _ _ _ _ HA)].
Qed.

(** When [First] reports [gorm.ErrRecordNotFound], get and delete answer
    [404 Not found] after that one query: no hook runs, nothing is
    deleted. Any other [First] error is a [500] with its message. *)
Theorem handlers_not_found (meta : EntityMeta) (ctx : Ctx) (idStr : string) (w : W) (id : Z)
    (e : Hooks.Entity S Ctx Tx string) (err : Repo.DBError) :
  Handlers.ParseInt idStr = Some id ->
  db_First ctx w (mk meta) id = (e, Some err) ->
  let resp := match err with
              | Repo.ErrRecordNotFound => Handlers.HttpError "Not found" 404
              | _ => Handlers.HttpError (Error err) 500
              end in
  Handlers.GetHandler mk db_First Error meta ctx idStr w = (w, resp, [Handlers.EFirst id]) /\
  Handlers.DeleteHandler db mk db_First db_Delete Error meta ctx idStr w =
    (w, resp, [Handlers.EFirst id]).
Proof.
  intros HP HF. unfold Handlers.GetHandler, Handlers.DeleteHandler. rewrite HP. simpl.
  rewrite HF. split; reflexivity.
Qed.


End HandlerProps.

Lemma handlers_invalid_id_witness :
  Handlers.ParseInt "9223372036854775808" = None /\
  Handlers.GetHandler (fun _ => Hooks.MockEntityWithHooks Hooks.mock0) first_found
    db_error_string user_meta tt "9223372036854775808" 3 =
    (3, Handlers.HttpError "Invalid ID" 400, []).
Proof.
  split; [reflexivity|].
  refine (proj1 (handlers_invalid_id tt (fun _ => Hooks.MockEntityWithHooks Hooks.mock0)
                   decode_ok first_found update_row delete_row db_error_string
                   user_meta tt "9223372036854775808" tt 3 _)).
  reflexivity.
Defined.



Lemma CreateHandler_created_witness :
  exists hs1 hs2,
    snd (Handlers.CreateHandler tt (fun _ => Hooks.MockEntityWithHooks Hooks.mock0) decode_ok
           insert_row db_error_string user_meta tt tt 3) =
      Handlers.hook_events hs1 ++ Handlers.ECreate :: Handlers.hook_events hs2.
Proof.
  destruct (CreateHandler_created tt (fun _ => Hooks.MockEntityWithHooks Hooks.mock0) decode_ok
              insert_row db_error_string user_meta tt tt 3 4 201
              (Hooks.with_state (Hooks.MockEntityWithHooks Hooks.mock0)
                 (Hooks.mark Hooks.AfterCreate (Hooks.mark Hooks.BeforeCreate Hooks.mock0)))
              (snd (Handlers.CreateHandler tt (fun _ => Hooks.MockEntityWithHooks Hooks.mock0)
                 decode_ok insert_row db_error_string user_meta tt tt 3)) eq_refl)
    as (_ & hs1 & hs2 & Htr & _).
  exists hs1, hs2. exact Htr.
Defined.

Lemma handlers_not_found_witness :
  Handlers.DeleteHandler tt (fun _ => Hooks.MockEntityWithHooks Hooks.mock0) first_missing
    delete_row db_error_string user_meta tt "+42" 3 =
    (3, Handlers.HttpError "Not found" 404, [Handlers.EFirst 42%Z]).
Proof.
  exact (proj2 (handlers_not_found tt (fun _ => Hooks.MockEntityWithHooks Hooks.mock0)
                  first_missing delete_row db_error_string user_meta tt "+42" 3 42%Z
                  (Hooks.MockEntityWithHooks Hooks.mock0) Repo.ErrRecordNotFound
                  eq_refl eq_refl)).
Defined.


